(** * Nexus gateway: the WebSocket session manager

    A shallow embedding of [src/networking/WebSocket/WebSocket.ts]: the
    connection handler, the message dispatcher, the close handler and the
    server shutdown, as state-passing functions over an explicit world
    (the [clients] registry, the socket objects, the set of sockets held by
    the [ws] server and the trace of calls made on collaborators).

    [debug] only feeds the [ondebug] hook from inside a try/catch: it never
    changes what a handler does next, and it is left out of the trace. *)

From Stdlib Require Import ZArith Ascii String DecimalString DecimalZ.
From stdpp Require Import gmap strings list.

Open Scope string_scope.
Open Scope list_scope.
Set Warnings "-register-all".

(** ** JavaScript values carried by decoded messages *)

(** What [Util.parse] can hand back: the image of JSON in JavaScript, plus
    [undefined].  Numbers are kept as integers: the code only compares
    [op] with [10] and tests truthiness. *)
Inductive JSValue : Type :=
| JUndefined
| JNull
| JBool (b : bool)
| JNum (n : Z)
| JStr (s : string)
| JArr (items : list JSValue)
| JObj (fields : list (string * JSValue)).

(** [!v] is [negb (truthy v)]. *)
Definition truthy (v : JSValue) : bool :=
  match v with
  | JUndefined | JNull => false
  | JBool b => b
  | JNum n => negb (n =? 0)%Z
  | JStr s => negb (String.eqb s "")
  | JArr _ | JObj _ => true
  end.

Fixpoint own_field (fields : list (string * JSValue)) (k : string) : JSValue :=
  match fields with
  | [] => JUndefined
  | (k', v) :: rest => if String.eqb k' k then v else own_field rest k
  end.

(** [v.k] for the property names the dispatcher reads ([op], [t], [d],
    [guild_id], [session_id], [user_id]): reading a property of
    [undefined] or [null] raises a TypeError ([None]); primitives and
    arrays have none of these properties. *)
Definition get_prop (v : JSValue) (k : string) : option JSValue :=
  match v with
  | JUndefined | JNull => None
  | JObj fields => Some (own_field fields k)
  | _ => Some JUndefined
  end.

(** [a === b].  Objects and arrays compare by reference; a value fresh
    from the decoder is never the same reference as anything else. *)
Definition strict_eq (a b : JSValue) : bool :=
  match a, b with
  | JUndefined, JUndefined => true
  | JNull, JNull => true
  | JBool x, JBool y => Bool.eqb x y
  | JNum x, JNum y => (x =? y)%Z
  | JStr x, JStr y => String.eqb x y
  | _, _ => false
  end.

(** ** Constants *)

(** Modelled from the spec: [Utils/Constants] is not part of the sources at
    hand.  The members of [WSCloseCodes] and [WSCloseMessage] used by the
    server, as the distinct constants the protocol asks for; a close call
    records the member used for the code and the one used for the reason. *)
Inductive WSCloseKey : Type :=
| NOT_ALLOWED
| NO_CLIENT_ID
| NO_AUTH
| SESSION_EXPIRED
| DECODE_ERROR
| ALREADY_CONNECTED
| NOT_IDENTIFIED
| SERVER_CLOSED.

#[global] Instance WSCloseKey_eq_dec : EqDecision WSCloseKey.
Proof. solve_decision. Defined.

(** [GatewayDispatchEvents] of discord-api-types. *)
Definition VoiceStateUpdate : string := "VOICE_STATE_UPDATE".
Definition VoiceServerUpdate : string := "VOICE_SERVER_UPDATE".

(** ** Sockets, clients and the world *)

Inductive ReadyState : Type := CONNECTING | OPEN | CLOSING | CLOSED.

#[global] Instance ReadyState_eq_dec : EqDecision ReadyState.
Proof. solve_decision. Defined.

(** A [WS] object: its state, the [__client_id__] property once defined,
    and whether [handleConnection] has installed the message and close
    listeners. *)
Record WS : Type := mkWS {
  readyState : ReadyState;
  client_id_tag : option string;
  listening : bool
}.

(** The socket the transport hands to the connection listener. *)
Definition accepted_socket : WS :=
  {| readyState := OPEN; client_id_tag := None; listening := false |}.

Record Subscription : Type := mkSubscription { guildID : string }.

(** Guild adapters are opaque handles. *)
Definition Adapter : Type := nat.

(** Modelled from the spec: the [Client] class ([audio/Client]) is not part
    of the sources at hand.  A session keeps the channel and the secret it
    was built with, a public identifier, its subscriptions (enumerated on
    close) and its adapters by guild identifier (read by the dispatcher). *)
Record Client : Type := mkClient {
  socket : nat;
  secret_key : string;
  statusInterval : Z;
  id : string;
  subscriptions : list Subscription;
  adapters : gmap string Adapter
}.

(** Server to client messages. *)
Inductive Payload : Type :=
| HELLO (ready : Z)                           (* {op: HELLO, d: {ready}} *)
| READY (client_id access_token : string).    (* {t: READY, d: {client_id, access_token}} *)

(** Calls made on collaborators, in the order they are made. *)
Inductive Event : Type :=
| EvClose (ws : nat) (code reason : WSCloseKey)
| EvSend (ws : nat) (data : Payload)
| EvKill (c : Client) (guild : string)
| EvVoiceStateUpdate (a : Adapter) (d : JSValue)
| EvVoiceServerUpdate (a : Adapter) (d : JSValue)
| EvServerClose.

Record World : Type := mkWorld {
  clients : gmap string Client;       (* the shared registry, ./clients *)
  sockets : gmap nat WS;              (* socket objects by reference *)
  server_clients : list nat;          (* this.ws.clients *)
  trace : list Event
}.

Definition initial : World :=
  {| clients := ∅; sockets := ∅; server_clients := []; trace := [] |}.

(** A reference not yet in the store denotes a socket just accepted. *)
Definition sock (w : World) (ws : nat) : WS :=
  default accepted_socket (sockets w !! ws).

Definition set_sock (w : World) (ws : nat) (s : WS) : World :=
  {| clients := clients w; sockets := <[ws := s]> (sockets w);
     server_clients := server_clients w; trace := trace w |}.

Definition set_clients (w : World) (m : gmap string Client) : World :=
  {| clients := m; sockets := sockets w;
     server_clients := server_clients w; trace := trace w |}.

Definition emit (w : World) (e : Event) : World :=
  {| clients := clients w; sockets := sockets w;
     server_clients := server_clients w; trace := trace w ++ [e] |}.

(** How a handler ends. *)
Inductive JSError : Type := TypeError | KillError.
Inductive Completion : Type := Normal | Throw (e : JSError).

(** ** The transport's primitives *)

(** [ws.close(code, reason)]: the call is recorded; a socket that is not
    yet closed starts its closing handshake.  The close event comes later,
    as an input of its own. *)
Definition ws_close (w : World) (ws : nat) (k : WSCloseKey) : World :=
  let s := sock w ws in
  let w' := emit w (EvClose ws k k) in
  match readyState s with
  | CLOSED => w'
  | _ => set_sock w' ws {| readyState := CLOSING; client_id_tag := client_id_tag s;
                           listening := listening s |}
  end.

(** [send(ws, data)]: [ws.send(JSON.stringify(data), Util.noop)]; write
    failures go to the no-op callback. *)
Definition send (w : World) (ws : nat) (data : Payload) : World :=
  emit w (EvSend ws data).

(** [getID(ws)]: the [__client_id__] property, [None] for [undefined]. *)
Definition getID (w : World) (ws : nat) : option string :=
  client_id_tag (sock w ws).

Definition id_value (i : option string) : JSValue :=
  match i with Some s => JStr s | None => JUndefined end.

(** [clients.get(k)] and [clients.has(k)] for a key that may be
    [undefined]: the registry has string keys only. *)
Definition clients_get (w : World) (k : option string) : option Client :=
  k ≫= (clients w !!.).

Definition clients_has (w : World) (k : option string) : bool :=
  bool_decide (is_Some (clients_get w k)).

(** ** The session secret *)

(** [Buffer.from(s).toString("base64")]: a string is the sequence of its
    UTF-8 bytes. *)
Definition b64_alphabet : string :=
  "ABCDEFGHIJKLMNOPQRSTUVWXYZabcdefghijklmnopqrstuvwxyz0123456789+/".

Definition b64_char (n : N) : ascii :=
  default "="%char (String.get (N.to_nat n) b64_alphabet).

Fixpoint base64_bytes (bs : list N) : string :=
  match bs with
  | [] => ""
  | [a] =>
      String (b64_char (a / 4))
        (String (b64_char ((a mod 4) * 16)) "==")
  | [a; b] =>
      String (b64_char (a / 4))
        (String (b64_char ((a mod 4) * 16 + b / 16))
           (String (b64_char ((b mod 16) * 4)) "="))
  | a :: b :: c :: rest =>
      String (b64_char (a / 4))
        (String (b64_char ((a mod 4) * 16 + b / 16))
           (String (b64_char ((b mod 16) * 4 + c / 64))
              (String (b64_char (c mod 64)) (base64_bytes rest))))
  end%N.

Definition base64 (s : string) : string :=
  base64_bytes (map N_of_ascii (list_ascii_of_string s)).

(** [buf.toString("hex")]. *)
Definition hex_alphabet : string := "0123456789abcdef".

Definition hex_char (n : N) : ascii :=
  default "0"%char (String.get (N.to_nat n) hex_alphabet).

Fixpoint hex (bs : list Byte.byte) : string :=
  match bs with
  | [] => ""
  | b :: rest =>
      String (hex_char (Byte.to_N b / 16))
        (String (hex_char (Byte.to_N b mod 16)) (hex rest))
  end%N.

(** A timestamp inside a template literal: its decimal digits. *)
Definition decimal (n : Z) : string := NilZero.string_of_int (Z.to_int n).

(** [`${base64(id)}.${Date.now()}.${randomBytes(32).toString("hex")}`] *)
Definition mint_secret (clientID : string) (now : Z) (random : list Byte.byte) : string :=
  base64 clientID +:+ "." +:+ decimal now +:+ "." +:+ hex random.

(** ** The server *)

(** The constructor's arguments ([httpServer] is the transport). *)
Record Config : Type := mkConfig {
  password : string;
  blockedIP : list string;
  updateStatusInterval : Z
}.

(** What [handleConnection] reads of the [IncomingMessage]. *)
Record Request : Type := mkRequest {
  x_forwarded_for : option string;    (* headers["x-forwarded-for"] *)
  remoteAddress : option string;      (* socket.remoteAddress *)
  header_client_id : option string;   (* headers["client-id"] *)
  authorization : option string       (* headers.authorization *)
}.

(** Collaborators whose code is elsewhere: the decoder [Util.parse]
    (a falsy result is a decode failure), whether [client.kill(guild)]
    raises, and the public identifier of a [Client] built from
    (channel, secret, status interval). *)
Record Externals : Type := mkExternals {
  parse : string -> JSValue;
  kill_throws : Client -> string -> bool;
  new_client_id : nat -> string -> Z -> string
}.

Definition nonempty (s : string) : bool := negb (String.eqb s "").

(** [a || b] on optional strings: the empty string is falsy. *)
Definition or_else (a b : option string) : option string :=
  match a with
  | Some x => if nonempty x then a else b
  | None => b
  end.

Definition source_address (request : Request) : option string :=
  or_else (x_forwarded_for request) (remoteAddress request).

(** [this.blockedIP?.includes(addr)] *)
Definition includes (l : list string) (x : option string) : bool :=
  match x with
  | Some a => bool_decide (a ∈ l)
  | None => false
  end.

(** [authorization !== this.password] *)
Definition differs (a : option string) (p : string) : bool :=
  match a with
  | Some x => negb (String.eqb x p)
  | None => true
  end.

(** [Object.defineProperty(ws, "__client_id__", {value: clientID})]: the
    property is neither writable nor configurable, so defining it again
    with another value raises. *)
Definition define_client_id (w : World) (ws : nat) (clientID : string) : option World :=
  let s := sock w ws in
  match client_id_tag s with
  | None => Some (set_sock w ws {| readyState := readyState s;
                                   client_id_tag := Some clientID;
                                   listening := listening s |})
  | Some old => if String.eqb old clientID then Some w else None
  end.

(** [ws.on("message", ...); ws.on("close", ...)] *)
Definition listen (w : World) (ws : nat) : World :=
  let s := sock w ws in
  set_sock w ws {| readyState := readyState s; client_id_tag := client_id_tag s;
                   listening := true |}.

Section Server.

Variable E : Externals.
Variable cfg : Config.

(** The takeover step of [handleConnection]. *)
Definition expire_previous (w : World) (clientID : string) : World :=
  match clients w !! clientID with
  | Some previous =>
      let previousSocket := socket previous in
      if bool_decide (readyState (sock w previousSocket) ≠ CLOSED)
      then ws_close w previousSocket SESSION_EXPIRED
      else w
  | None => w
  end.

Definition handleConnection (w : World) (ws : nat) (request : Request) (now : Z)
  : World * Completion :=
  if includes (blockedIP cfg) (source_address request)
  then (ws_close w ws NOT_ALLOWED, Normal)
  else
    match header_client_id request with
    | None => (ws_close w ws NO_CLIENT_ID, Normal)
    | Some clientID =>
        if negb (nonempty clientID) then (ws_close w ws NO_CLIENT_ID, Normal)
        else if nonempty (password cfg) && differs (authorization request) (password cfg)
        then (ws_close w ws NO_AUTH, Normal)
        else
          let w1 := expire_previous w clientID in
          match define_client_id w1 ws clientID with
          | None => (w1, Throw TypeError)
          | Some w2 => (listen (send w2 ws (HELLO now)) ws, Normal)
          end
    end.

(** [subclient.subscriptions.forEach((s) => subclient.kill(s.guildID))]:
    the first [kill] that raises ends the loop. *)
Fixpoint forEach_kill (w : World) (subclient : Client) (subs : list Subscription)
  : World * Completion :=
  match subs with
  | [] => (w, Normal)
  | s :: rest =>
      let w' := emit w (EvKill subclient (guildID s)) in
      if kill_throws E subclient (guildID s)
      then (w', Throw KillError)
      else forEach_kill w' subclient rest
  end.

(** The close listener installed by [handleConnection] for [clientID]:
    the loop sits inside one [try], the deletion comes after it. *)
Definition on_close (w : World) (clientID : string) : World :=
  let w1 :=
    match clients w !! clientID with
    | Some subclient => fst (forEach_kill w subclient (subscriptions subclient))
    | None => w
    end in
  set_clients w1 (delete clientID (clients w1)).

(** [client.adapters.get(k)]: adapters are stored under strings. *)
Definition adapters_get (c : Client) (k : JSValue) : option Adapter :=
  match k with
  | JStr g => adapters c !! g
  | _ => None
  end.

(** The [switch (message.t)] of [handleWSMessage]. *)
Definition dispatch (w : World) (client : Client) (message : JSValue)
  : World * Completion :=
  match get_prop message "t" with
  | None => (w, Throw TypeError)
  | Some t =>
      if strict_eq t (JStr VoiceStateUpdate) then
        match get_prop message "d" ≫= (λ d, get_prop d "guild_id") with
        | None => (w, Throw TypeError)
        | Some guild_id =>
            let d := default JUndefined (get_prop message "d") in
            let session_id := default JUndefined (get_prop d "session_id") in
            let user_id := default JUndefined (get_prop d "user_id") in
            if truthy guild_id && truthy session_id
               && strict_eq user_id (id_value (getID w (socket client)))
            then
              match adapters_get client guild_id with
              | Some adapter => (emit w (EvVoiceStateUpdate adapter d), Normal)
              | None => (w, Normal)
              end
            else (w, Normal)
        end
      else if strict_eq t (JStr VoiceServerUpdate) then
        match get_prop message "d" ≫= (λ d, get_prop d "guild_id") with
        | None => (w, Throw TypeError)
        | Some guild_id =>
            let d := default JUndefined (get_prop message "d") in
            match adapters_get client guild_id with
            | Some adapter => (emit w (EvVoiceServerUpdate adapter d), Normal)
            | None => (w, Normal)
            end
        end
      else (w, Normal)
  end.

Definition handleWSMessage (w : World) (ws : nat) (msg : string)
    (now : Z) (random : list Byte.byte) : World * Completion :=
  let message := parse E msg in
  if negb (truthy message) then (ws_close w ws DECODE_ERROR, Normal)
  else if strict_eq (default JUndefined (get_prop message "op")) (JNum 10) then
    if clients_has w (getID w ws) then (ws_close w ws ALREADY_CONNECTED, Normal)
    else
      match getID w ws with
      | None => (w, Throw TypeError)          (* Buffer.from(undefined) *)
      | Some clientID =>
          let secret_key := mint_secret clientID now random in
          let wsClient :=
            {| socket := ws; secret_key := secret_key;
               statusInterval := updateStatusInterval cfg;
               id := new_client_id E ws secret_key (updateStatusInterval cfg);
               subscriptions := []; adapters := ∅ |} in
          let w1 := set_clients w (<[clientID := wsClient]> (clients w)) in
          (send w1 ws (READY (id wsClient) secret_key), Normal)
      end
  else
    match clients_get w (getID w ws) with
    | None => (ws_close w ws NOT_IDENTIFIED, Normal)
    | Some client => dispatch w client message
    end.

(** [close()] *)
Definition close_if_open (w : World) (client : nat) : World :=
  if bool_decide (readyState (sock w client) ≠ OPEN) then w
  else ws_close w client SERVER_CLOSED.

Definition close (w : World) : World :=
  let w1 := foldl close_if_open w (server_clients w) in
  let w2 := emit w1 EvServerClose in
  set_clients w2 ∅.

End Server.

(** ** The transport around the handlers *)

(** What can happen to the server: a connection is accepted, a message or
    the close event arrives on a socket that listens, the server is shut
    down, or the audio side attaches a subscription and its adapter to a
    registered client. *)
Inductive Input : Type :=
| InConnection (ws : nat) (request : Request) (now : Z)
| InMessage (ws : nat) (msg : string) (now : Z) (random : list Byte.byte)
| InClose (ws : nat)
| InShutdown
| InSubscribe (clientID guild : string) (a : Adapter).

Definition subscribe (guild : string) (a : Adapter) (c : Client) : Client :=
  {| socket := socket c; secret_key := secret_key c;
     statusInterval := statusInterval c; id := id c;
     subscriptions := subscriptions c ++ [{| guildID := guild |}];
     adapters := <[guild := a]> (adapters c) |}.

(** The socket is closed and leaves [ws.clients] before the close
    listeners run. *)
Definition closed_by_transport (w : World) (ws : nat) : World :=
  let s := sock w ws in
  {| clients := clients w;
     sockets := <[ws := {| readyState := CLOSED; client_id_tag := client_id_tag s;
                           listening := listening s |}]> (sockets w);
     server_clients := filter (λ x, x ≠ ws) (server_clients w);
     trace := trace w |}.

Definition accepted_by_transport (w : World) (ws : nat) : World :=
  {| clients := clients w;
     sockets := <[ws := accepted_socket]> (sockets w);
     server_clients := server_clients w ++ [ws];
     trace := trace w |}.

Definition step (E : Externals) (cfg : Config) (w : World) (i : Input) : World :=
  match i with
  | InConnection ws request now =>
      match sockets w !! ws with
      | Some _ => w
      | None => fst (handleConnection cfg (accepted_by_transport w ws) ws request now)
      end
  | InMessage ws msg now random =>
      let s := sock w ws in
      if listening s && bool_decide (readyState s ≠ CLOSED)
      then fst (handleWSMessage E cfg w ws msg now random)
      else w
  | InClose ws =>
      let s := sock w ws in
      if bool_decide (readyState s ≠ CLOSED) then
        let w1 := closed_by_transport w ws in
        match listening s, client_id_tag s with
        | true, Some clientID => on_close E w1 clientID
        | _, _ => w1
        end
      else w
  | InShutdown => close w
  | InSubscribe clientID guild a =>
      set_clients w (alter (subscribe guild a) clientID (clients w))
  end.

Definition run (E : Externals) (cfg : Config) (inputs : list Input) : World :=
  foldl (step E cfg) initial inputs.

Definition reachable (E : Externals) (cfg : Config) (w : World) : Prop :=
  ∃ inputs, run E cfg inputs = w.

(** Every registered session sits under the identity its channel is
    tagged with. *)
Definition registry_tagged (w : World) : Prop :=
  ∀ k c, clients w !! k = Some c → getID w (socket c) = Some k.

(** ** Vocabulary of the properties *)

(** The source address of the request is on the block list. *)
Definition blocked (cfg : Config) (request : Request) : Prop :=
  ∃ a, source_address request = Some a ∧ a ∈ blockedIP cfg.

(** The handler ends normally and all it did was to close [ws] with [k]:
    one close call in the trace, the registry as it was, no identity
    tagged on the socket and no listener installed. *)
Definition rejected_with (w : World) (ws : nat) (k : WSCloseKey)
    (r : World * Completion) : Prop :=
  r.2 = Normal
  ∧ trace r.1 = trace w ++ [EvClose ws k k]
  ∧ clients r.1 = clients w
  ∧ client_id_tag (sock r.1 ws) = client_id_tag (sock w ws)
  ∧ listening (sock r.1 ws) = listening (sock w ws).

(** The guilds for which [kill] was called, read off a trace. *)
Definition kill_guild (e : Event) : option string :=
  match e with
  | EvKill _ guild => Some guild
  | _ => None
  end.

Definition kills (tr : list Event) : list string := omap kill_guild tr.

(** The subscriptions the teardown loop gets to: each one up to and
    including the first whose [kill] raises. *)
Fixpoint attempted (E : Externals) (c : Client) (subs : list Subscription)
  : list Subscription :=
  match subs with
  | [] => []
  | s :: rest =>
      s :: (if kill_throws E c (guildID s) then [] else attempted E c rest)
  end.

(** The teardown as the specification words it: whatever [kill] does,
    the close handler adds one [kill] call for every subscription of the
    session found under [clientID], and the identity leaves the
    registry. *)
Definition teardown_kills_all (E : Externals) (w : World) (clientID : string) : Prop :=
  ∀ session, clients w !! clientID = Some session →
    ∃ added,
      trace (on_close E w clientID) = trace w ++ added
      ∧ kills added ≡ₚ map guildID (subscriptions session)
      ∧ clients (on_close E w clientID) !! clientID = None.

(** The request passes the three admission checks for [clientID]. *)
Definition admitted (cfg : Config) (request : Request) (clientID : string) : Prop :=
  ¬ blocked cfg request
  ∧ header_client_id request = Some clientID
  ∧ clientID ≠ ""
  ∧ (password cfg = "" ∨ authorization request = Some (password cfg)).

(** How many times a character occurs in a string. *)
Fixpoint count_char (c : ascii) (s : string) : nat :=
  match s with
  | EmptyString => 0
  | String x rest => (if Ascii.eqb x c then 1 else 0) + count_char c rest
  end.

(** Tags are never removed or changed from [w] to [w']. *)
Definition tags_kept (w w' : World) : Prop :=
  ∀ s k, getID w s = Some k → getID w' s = Some k.

(** [message.d.k], [undefined] when there is no [d] to read it from. *)
Definition payload_field (message : JSValue) (k : string) : JSValue :=
  default JUndefined (get_prop message "d" ≫= (λ d, get_prop d k)).

(** ** A concrete server *)

(** A decoder given by a table, a [kill] that raises for guild ["g1"],
    and a server without password or block list. *)
Definition demo_messages : list (string * JSValue) :=
  [ ("identify", JObj [("op", JNum 10)]);
    ("state", JObj [("t", JStr "VOICE_STATE_UPDATE");
                    ("d", JObj [("guild_id", JStr "g2"); ("session_id", JStr "s1");
                                ("user_id", JStr "abc")])]);
    ("state-other", JObj [("t", JStr "VOICE_STATE_UPDATE");
                          ("d", JObj [("guild_id", JStr "g2"); ("session_id", JStr "s1");
                                      ("user_id", JStr "mallory")])]);
    ("state-no-d", JObj [("t", JStr "VOICE_STATE_UPDATE")]);
    ("server-no-d", JObj [("t", JStr "VOICE_SERVER_UPDATE")]) ].

Definition demo_E : Externals :=
  {| parse := own_field demo_messages;
     kill_throws := λ _ guild, String.eqb guild "g1";
     new_client_id := λ ws _ _, "client-" +:+ decimal (Z.of_nat ws) |}.

Definition demo_cfg : Config :=
  {| password := ""; blockedIP := []; updateStatusInterval := 5000 |}.

Definition demo_locked_cfg : Config :=
  {| password := "hunter2"; blockedIP := ["10.0.0.9"]; updateStatusInterval := 5000 |}.

Definition demo_request : Request :=
  {| x_forwarded_for := None; remoteAddress := Some "10.0.0.1";
     header_client_id := Some "abc"; authorization := None |}.

Definition demo_random : list Byte.byte := [Byte.x00; Byte.xff; Byte.x1a].

(** ["abc"] connects on socket 0, identifies, and the audio side attaches
    subscriptions for guilds ["g1"] and ["g2"]. *)
Definition demo_session : World :=
  run demo_E demo_cfg
    [ InConnection 0 demo_request 100;
      InMessage 0 "identify" 101 demo_random;
      InSubscribe "abc" "g1" 7;
      InSubscribe "abc" "g2" 8 ].

Definition demo_client : Client :=
  {| socket := 0; secret_key := "YWJj.101.00ff1a"; statusInterval := 5000;
     id := "client-0";
     subscriptions := [ {| guildID := "g1" |}; {| guildID := "g2" |} ];
     adapters := <["g2" := 8]> (<["g1" := 7]> ∅) |}.

(** Socket 0 connects as ["abc"] and never identifies; socket 1 connects
    as ["abc"] too, identifies, and gets a subscription for ["g2"]. *)
Definition demo_two_channels : World :=
  run demo_E demo_cfg
    [ InConnection 0 demo_request 100;
      InConnection 1 demo_request 200;
      InMessage 1 "identify" 201 demo_random;
      InSubscribe "abc" "g2" 8 ].

Definition demo_newer_client : Client :=
  {| socket := 1; secret_key := "YWJj.201.00ff1a"; statusInterval := 5000;
     id := "client-1";
     subscriptions := [ {| guildID := "g2" |} ];
     adapters := <["g2" := 8]> ∅ |}.

(** Sockets 0 and 1 are connected, socket 2 connected and has been closed. *)
Definition demo_three_sockets : World :=
  run demo_E demo_cfg
    [ InConnection 0 demo_request 100;
      InMessage 0 "identify" 101 demo_random;
      InConnection 2 (mkRequest None None (Some "xyz") None) 110;
      InConnection 1 (mkRequest None None (Some "def") None) 120;
      InClose 2 ].

(** Socket 0 has connected as ["abc"] and not identified yet. *)
Definition demo_connected : World :=
  run demo_E demo_cfg [ InConnection 0 demo_request 100 ].

(** Requests against the password-protected server: from a blocked
    address, without a client identity, and with a wrong password. *)
Definition demo_blocked_request : Request :=
  {| x_forwarded_for := Some "10.0.0.9"; remoteAddress := Some "10.0.0.1";
     header_client_id := None; authorization := None |}.

Definition demo_anonymous_request : Request :=
  {| x_forwarded_for := None; remoteAddress := Some "10.0.0.1";
     header_client_id := Some ""; authorization := None |}.

Definition demo_unauthorized_request : Request :=
  {| x_forwarded_for := Some ""; remoteAddress := Some "10.0.0.1";
     header_client_id := Some "abc"; authorization := Some "letmein" |}.

(** ** Vocabulary of the further properties *)

(** The [Client] that [handleWSMessage] builds on identification. *)
Definition fresh_client (E : Externals) (cfg : Config) (ws : nat)
    (clientID : string) (now : Z) (random : list Byte.byte) : Client :=
  {| socket := ws;
     secret_key := mint_secret clientID now random;
     statusInterval := updateStatusInterval cfg;
     id := new_client_id E ws (mint_secret clientID now random)
             (updateStatusInterval cfg);
     subscriptions := [];
     adapters := ∅ |}.

(** A call the message listener of [ws] may make in [w]: closing or
    writing to [ws] itself, or calling an adapter kept by the session
    registered under the identity of [ws]. *)
Definition own_call (w : World) (ws : nat) (e : Event) : Prop :=
  match e with
  | EvClose s _ _ => s = ws
  | EvSend s _ => s = ws
  | EvVoiceStateUpdate a _ | EvVoiceServerUpdate a _ =>
      ∃ session guild,
        clients_get w (getID w ws) = Some session
        ∧ adapters session !! guild = Some a
  | EvKill _ _ | EvServerClose => False
  end.

(** The text before the first "." of a string, and the text after it. *)
Fixpoint before_dot (s : string) : string :=
  match s with
  | EmptyString => EmptyString
  | String c rest => if Ascii.eqb c "." then EmptyString else String c (before_dot rest)
  end.

Fixpoint after_dot (s : string) : string :=
  match s with
  | EmptyString => EmptyString
  | String c rest => if Ascii.eqb c "." then rest else after_dot rest
  end.

(** Every READY in the trace comes after a HELLO on the same socket. *)
Definition hello_before_ready (tr : list Event) : Prop :=
  ∀ pre ws client_id access_token post,
    tr = pre ++ EvSend ws (READY client_id access_token) :: post →
    ∃ ready, EvSend ws (HELLO ready) ∈ pre.

(** More messages for the concrete server. *)
Definition more_messages : list (string * JSValue) :=
  [ ("server-other", JObj [("t", JStr "VOICE_SERVER_UPDATE");
                           ("d", JObj [("guild_id", JStr "g2");
                                       ("user_id", JStr "mallory")])]);
    ("presence", JObj [("t", JStr "PRESENCE_UPDATE"); ("d", JNull)]);
    ("identify-again", JObj [("op", JNum 10); ("t", JStr "VOICE_STATE_UPDATE")]) ]
  ++ demo_messages.

Definition more_E : Externals :=
  {| parse := own_field more_messages;
     kill_throws := λ _ guild, String.eqb guild "g1";
     new_client_id := λ ws _ _, "client-" +:+ decimal (Z.of_nat ws) |}.

(** ["abc"] on socket 0 with subscriptions for ["g1"] and ["g2"], and
    ["def"] on socket 1 with one for ["g3"]. *)
Definition demo_two_sessions : World :=
  run more_E demo_cfg
    [ InConnection 0 demo_request 100;
      InMessage 0 "identify" 101 demo_random;
      InSubscribe "abc" "g1" 7;
      InSubscribe "abc" "g2" 8;
      InConnection 1 (mkRequest None None (Some "def") None) 120;
      InMessage 1 "identify" 121 demo_random;
      InSubscribe "def" "g3" 9 ].

(** A call [handleConnection] may make for [request] on the accepted
    socket [ws]: closing [ws], greeting it, or expiring the socket of the
    session registered under the identity the request names. *)
Definition connection_call (w : World) (ws : nat) (request : Request) (now : Z)
    (e : Event) : Prop :=
  (∃ k, e = EvClose ws k k ∧ k ≠ SESSION_EXPIRED)
  ∨ e = EvSend ws (HELLO now)
  ∨ (∃ clientID previous,
       header_client_id request = Some clientID
       ∧ clients w !! clientID = Some previous
       ∧ e = EvClose (socket previous) SESSION_EXPIRED SESSION_EXPIRED).

(** Any call but sending READY. *)
Definition not_ready (e : Event) : Prop :=
  match e with
  | EvSend _ (READY _ _) => False
  | _ => True
  end.

(** What one input adds to the trace: calls among which READY is sent only
    to a socket that was listening, and HELLO to every socket that starts
    to listen. *)
Definition handshake_step (w w' : World) : Prop :=
  ∃ added,
    trace w' = trace w ++ added
    ∧ (Forall not_ready added
       ∨ ∃ ws client_id access_token,
           added = [EvSend ws (READY client_id access_token)]
           ∧ listening (sock w ws) = true)
    ∧ ∀ s, listening (sock w' s) = true →
           listening (sock w s) = true ∨ ∃ ready, EvSend s (HELLO ready) ∈ added.

(** A step that sends no READY and changes no listener. *)
Definition quiet_step (w w' : World) : Prop :=
  ∃ added,
    trace w' = trace w ++ added
    ∧ Forall not_ready added
    ∧ ∀ s, listening (sock w' s) = listening (sock w s).

(** The handshake invariant of a world. *)
Definition handshake_inv (w : World) : Prop :=
  hello_before_ready (trace w)
  ∧ ∀ s, listening (sock w s) = true → ∃ ready, EvSend s (HELLO ready) ∈ trace w.

(** No socket is tagged with the empty identity. *)
Definition tags_nonempty (w : World) : Prop :=
  ∀ s k, getID w s = Some k → k ≠ "".

(** [w'] has the tags of [w], no more and no less. *)
Definition same_ids (w w' : World) : Prop :=
  ∀ s, getID w' s = getID w s.

(** Every registered session was built by an identification of the
    identity it is registered under. *)
Definition sessions_minted (E : Externals) (cfg : Config) (w : World) : Prop :=
  ∀ k c, clients w !! k = Some c →
    ∃ now random,
      secret_key c = mint_secret k now random
      ∧ id c = new_client_id E (socket c) (secret_key c) (updateStatusInterval cfg)
      ∧ statusInterval c = updateStatusInterval cfg.

(** A request whose forwarded address is clean and whose peer address is
    on the block list. *)
Definition demo_forwarded_request : Request :=
  {| x_forwarded_for := Some "10.0.0.1"; remoteAddress := Some "10.0.0.9";
     header_client_id := Some "abc"; authorization := Some "hunter2" |}.

(** The close event as C10 words it: on a listening channel tagged
    [clientID], the identity leaves the registry and the session found
    under it, whichever channel it is bound to, has [kill] called for
    every one of its subscriptions. *)
Definition close_kills_whole_session (E : Externals) (cfg : Config)
    (w : World) (ws : nat) (clientID : string) : Prop :=
  getID w ws = Some clientID →
  listening (sock w ws) = true →
  readyState (sock w ws) ≠ CLOSED →
  clients (step E cfg w (InClose ws)) !! clientID = None
  ∧ ∀ session, clients w !! clientID = Some session →
      ∃ added,
        trace (step E cfg w (InClose ws)) = trace w ++ added
        ∧ kills added ≡ₚ map guildID (subscriptions session).

(** Socket 0 connects as ["abc"] and never identifies; socket 1 connects
    as ["abc"], identifies, and gets subscriptions for ["g1"] and
    ["g2"]. *)
Definition demo_newer_two_guilds : World :=
  run demo_E demo_cfg
    [ InConnection 0 demo_request 100;
      InConnection 1 demo_request 200;
      InMessage 1 "identify" 201 demo_random;
      InSubscribe "abc" "g1" 7;
      InSubscribe "abc" "g2" 8 ].

Definition demo_newer_client_two_guilds : Client :=
  {| socket := 1; secret_key := "YWJj.201.00ff1a"; statusInterval := 5000;
     id := "client-1";
     subscriptions := [ {| guildID := "g1" |}; {| guildID := "g2" |} ];
     adapters := <["g2" := 8]> (<["g1" := 7]> ∅) |}.

(** * Properties *)

(** ** Basic facts about the primitives *)

Lemma clients_ws_close w ws k : clients (ws_close w ws k) = clients w.
Proof. unfold ws_close. by destruct (readyState (sock w ws)). Qed.

Lemma trace_ws_close w ws k :
  trace (ws_close w ws k) = trace w ++ [EvClose ws k k].
Proof. unfold ws_close. by destruct (readyState (sock w ws)). Qed.

Lemma sock_set_sock w ws s ws' :
  sock (set_sock w ws s) ws' = if decide (ws = ws') then s else sock w ws'.
Proof.
  unfold sock, set_sock; simpl. rewrite lookup_insert.
  by destruct (decide (ws = ws')).
Qed.

Lemma sock_ws_close_ne w ws k ws' :
  ws ≠ ws' → sock (ws_close w ws k) ws' = sock w ws'.
Proof.
  intros Hne. unfold ws_close.
  destruct (readyState (sock w ws)); try done;
    rewrite sock_set_sock; by destruct (decide (ws = ws')).
Qed.

Lemma tag_ws_close w ws k ws' :
  client_id_tag (sock (ws_close w ws k) ws') = client_id_tag (sock w ws').
Proof.
  unfold ws_close.
  destruct (readyState (sock w ws)) eqn:Hr; try done;
    rewrite sock_set_sock; destruct (decide (ws = ws')); by subst.
Qed.

Lemma listening_ws_close w ws k ws' :
  listening (sock (ws_close w ws k) ws') = listening (sock w ws').
Proof.
  unfold ws_close.
  destruct (readyState (sock w ws)) eqn:Hr; try done;
    rewrite sock_set_sock; destruct (decide (ws = ws')); by subst.
Qed.

Lemma getID_ws_close w ws k ws' : getID (ws_close w ws k) ws' = getID w ws'.
Proof. apply tag_ws_close. Qed.

Lemma includes_true l x : includes l x = true ↔ ∃ a, x = Some a ∧ a ∈ l.
Proof.
  destruct x as [a|]; simpl.
  - rewrite bool_decide_eq_true. split.
    + intros Hin. by exists a.
    + by intros (b & [= <-] & Hin).
  - split; [done | by intros (b & ? & _)].
Qed.

Lemma nonempty_true s : nonempty s = true ↔ s ≠ "".
Proof.
  unfold nonempty. destruct (String.eqb_spec s ""); naive_solver.
Qed.

Lemma differs_true a p : differs a p = true ↔ a ≠ Some p.
Proof.
  destruct a as [x|]; simpl; [|naive_solver].
  destruct (String.eqb_spec x p); naive_solver.
Qed.

Lemma includes_false l x : includes l x = false ↔ ∀ a, x = Some a → a ∉ l.
Proof.
  rewrite <- not_true_iff_false, includes_true. split.
  - intros Hn a -> Hin. apply Hn. by exists a.
  - intros Hall (a & Hx & Hin). by apply (Hall a).
Qed.

(** ** Admission (C5) *)

Lemma ws_close_rejected w ws k : rejected_with w ws k (ws_close w ws k, Normal).
Proof.
  unfold rejected_with; simpl.
  by rewrite trace_ws_close, clients_ws_close, tag_ws_close, listening_ws_close.
Qed.

(** C5.  The admission checks of [handleConnection] run in order and each
    rejection only closes the new channel with its own code: a blocked
    source address gives NOT_ALLOWED; otherwise a missing or empty client
    identity gives NO_CLIENT_ID, leaving the registry as it was; otherwise
    a non-empty password that the authorization header does not equal
    gives NO_AUTH. *)
Theorem C5_admission_checks cfg w ws request now :
  (blocked cfg request →
     rejected_with w ws NOT_ALLOWED (handleConnection cfg w ws request now))
  ∧ (¬ blocked cfg request →
     header_client_id request = None ∨ header_client_id request = Some "" →
     rejected_with w ws NO_CLIENT_ID (handleConnection cfg w ws request now))
  ∧ (¬ blocked cfg request →
     ∀ clientID, header_client_id request = Some clientID → clientID ≠ "" →
     password cfg ≠ "" → authorization request ≠ Some (password cfg) →
     rejected_with w ws NO_AUTH (handleConnection cfg w ws request now)).
Proof.
  unfold blocked, handleConnection. repeat split_and.
  - intros Hb. apply includes_true in Hb. rewrite Hb.
    apply ws_close_rejected.
  - intros Hnb Hid.
    destruct (includes _ _) eqn:Hinc.
    { exfalso. apply Hnb. by apply includes_true. }
    destruct Hid as [-> | ->]; simpl; apply ws_close_rejected.
  - intros Hnb clientID Hid Hne Hpw Hauth.
    destruct (includes _ _) eqn:Hinc.
    { exfalso. apply Hnb. by apply includes_true. }
    rewrite Hid.
    apply nonempty_true in Hne, Hpw. apply differs_true in Hauth.
    rewrite Hne, Hpw, Hauth. simpl. apply ws_close_rejected.
Qed.

Lemma not_blocked_by_includes cfg request :
  includes (blockedIP cfg) (source_address request) = false → ¬ blocked cfg request.
Proof.
  intros Hinc (a & Ha & Hin). by apply (proj1 (includes_false _ _) Hinc a Ha).
Qed.

Lemma C5_admission_checks_witness :
  rejected_with initial 0 NOT_ALLOWED
    (handleConnection demo_locked_cfg initial 0 demo_blocked_request 100)
  ∧ rejected_with initial 0 NO_CLIENT_ID
      (handleConnection demo_locked_cfg initial 0 demo_anonymous_request 100)
  ∧ rejected_with initial 0 NO_AUTH
      (handleConnection demo_locked_cfg initial 0 demo_unauthorized_request 100).
Proof.
  split; [|split].
  - apply (C5_admission_checks demo_locked_cfg initial 0 demo_blocked_request 100).
    exists "10.0.0.9". split; [reflexivity | apply list_elem_of_here].
  - apply (C5_admission_checks demo_locked_cfg initial 0 demo_anonymous_request 100).
    + by apply not_blocked_by_includes.
    + by right.
  - apply (C5_admission_checks demo_locked_cfg initial 0 demo_unauthorized_request 100)
      with (clientID := "abc").
    + by apply not_blocked_by_includes.
    + reflexivity.
    + discriminate.
    + discriminate.
    + discriminate.
Defined.

(** ** Decoding and identification (C6, C7) *)

Lemma clients_has_true w k : clients_has w k = true ↔ is_Some (clients_get w k).
Proof. unfold clients_has. apply bool_decide_eq_true. Qed.

(** C7.  A raw message that does not decode (the decoder's result is
    falsy) closes the channel with DECODE_ERROR and nothing else happens:
    the handler returns, the close call is the only new entry of the
    trace, and the registry is the one it started with. *)
Theorem C7_decode_error E cfg w ws msg now random :
  truthy (parse E msg) = false →
  rejected_with w ws DECODE_ERROR (handleWSMessage E cfg w ws msg now random).
Proof.
  intros Hf. unfold handleWSMessage. rewrite Hf. simpl.
  apply ws_close_rejected.
Qed.

Lemma C7_decode_error_witness :
  parse demo_E "{not json" = JUndefined
  ∧ rejected_with demo_session 0 DECODE_ERROR
      (handleWSMessage demo_E demo_cfg demo_session 0 "{not json" 400 demo_random).
Proof.
  split; [reflexivity|].
  apply (C7_decode_error demo_E demo_cfg demo_session 0 "{not json" 400 demo_random).
  reflexivity.
Defined.

(** C6.  On a channel whose identity is in the registry, an identify
    message (op 10) closes the channel with ALREADY_CONNECTED; the
    registry, and so the session registered for the identity, is left as
    it was, and the close call is all the handler does for the message. *)
Theorem C6_identify_twice E cfg w ws msg now random clientID session :
  getID w ws = Some clientID →
  clients w !! clientID = Some session →
  truthy (parse E msg) = true →
  get_prop (parse E msg) "op" = Some (JNum 10) →
  rejected_with w ws ALREADY_CONNECTED (handleWSMessage E cfg w ws msg now random)
  ∧ clients (handleWSMessage E cfg w ws msg now random).1 !! clientID = Some session.
Proof.
  intros Hid Hreg Ht Hop. unfold handleWSMessage.
  rewrite Ht, Hop. simpl.
  assert (clients_has w (getID w ws) = true) as ->.
  { apply clients_has_true. rewrite Hid. simpl. by rewrite Hreg. }
  split; [apply ws_close_rejected|].
  simpl. by rewrite clients_ws_close.
Qed.

Lemma C6_identify_twice_witness :
  rejected_with demo_session 0 ALREADY_CONNECTED
    (handleWSMessage demo_E demo_cfg demo_session 0 "identify" 400 demo_random)
  ∧ clients (handleWSMessage demo_E demo_cfg demo_session 0 "identify" 400
               demo_random).1 !! "abc" = Some demo_client.
Proof.
  apply (C6_identify_twice demo_E demo_cfg demo_session 0 "identify" 400
           demo_random "abc" demo_client).
  - reflexivity.
  - vm_compute. reflexivity.
  - reflexivity.
  - reflexivity.
Defined.

(** ** Teardown on close (C1, C10) *)

Lemma clients_forEach_kill E c subs w :
  clients (forEach_kill E w c subs).1 = clients w.
Proof.
  revert w. induction subs as [|s rest IH]; intros w; simpl; [done|].
  destruct (kill_throws E c (guildID s)); simpl; [done|].
  by rewrite IH.
Qed.

Lemma sockets_forEach_kill E c subs w :
  sockets (forEach_kill E w c subs).1 = sockets w.
Proof.
  revert w. induction subs as [|s rest IH]; intros w; simpl; [done|].
  destruct (kill_throws E c (guildID s)); simpl; [done|].
  by rewrite IH.
Qed.

Lemma trace_forEach_kill E c subs w :
  trace (forEach_kill E w c subs).1
  = trace w ++ map (λ s, EvKill c (guildID s)) (attempted E c subs).
Proof.
  revert w. induction subs as [|s rest IH]; intros w; simpl.
  - by rewrite app_nil_r.
  - destruct (kill_throws E c (guildID s)); simpl; [done|].
    rewrite IH. simpl. by rewrite <- app_assoc.
Qed.

Lemma attempted_all E c subs :
  (∀ s, s ∈ subs → kill_throws E c (guildID s) = false) →
  attempted E c subs = subs.
Proof.
  induction subs as [|s rest IH]; intros Hok; simpl; [done|].
  rewrite (Hok s) by apply list_elem_of_here.
  f_equal. apply IH. intros s' Hin. apply Hok. by apply list_elem_of_further.
Qed.

Lemma attempted_stops E c before s after :
  (∀ s', s' ∈ before → kill_throws E c (guildID s') = false) →
  kill_throws E c (guildID s) = true →
  attempted E c (before ++ s :: after) = before ++ [s].
Proof.
  intros Hok Hfail. induction before as [|b rest IH]; simpl.
  - by rewrite Hfail.
  - rewrite (Hok b) by apply list_elem_of_here.
    f_equal. apply IH. intros s' Hin. apply Hok. by apply list_elem_of_further.
Qed.

Lemma clients_on_close E w clientID :
  clients (on_close E w clientID) = delete clientID (clients w).
Proof.
  unfold on_close. simpl.
  destruct (clients w !! clientID) as [c|]; [|done].
  by rewrite clients_forEach_kill.
Qed.

Lemma on_close_removes E w clientID :
  clients (on_close E w clientID) !! clientID = None.
Proof. rewrite clients_on_close. apply lookup_delete_eq. Qed.

(** C1, as the code has it.  When the channel tagged [clientID] closes and
    a session is registered under [clientID], the close listener calls
    [kill] once per subscription of that session, in order, up to and
    including the first subscription whose [kill] raises: all of them when
    none raises, and none of those after a raising one.  Whether or not a
    [kill] raised, the identity is then removed from the registry. *)
Theorem C1_teardown_until_first_failure E w clientID session :
  clients w !! clientID = Some session →
  trace (on_close E w clientID)
    = trace w ++ map (λ s, EvKill session (guildID s))
                     (attempted E session (subscriptions session))
  ∧ clients (on_close E w clientID) !! clientID = None
  ∧ ((∀ s, s ∈ subscriptions session → kill_throws E session (guildID s) = false) →
     attempted E session (subscriptions session) = subscriptions session)
  ∧ (∀ before s after,
       subscriptions session = before ++ s :: after →
       (∀ s', s' ∈ before → kill_throws E session (guildID s') = false) →
       kill_throws E session (guildID s) = true →
       attempted E session (subscriptions session) = before ++ [s]).
Proof.
  intros Hreg. repeat split_and.
  - unfold on_close. rewrite Hreg. simpl. apply trace_forEach_kill.
  - apply on_close_removes.
  - apply attempted_all.
  - intros before s after -> Hok Hfail. by apply attempted_stops.
Qed.

Lemma C1_teardown_witness :
  clients demo_session !! "abc" = Some demo_client
  ∧ trace (on_close demo_E demo_session "abc")
    = trace demo_session ++ [EvKill demo_client "g1"]
  ∧ clients (on_close demo_E demo_session "abc") !! "abc" = None.
Proof.
  assert (clients demo_session !! "abc" = Some demo_client) as Hreg
    by (vm_compute; reflexivity).
  split; [exact Hreg|].
  destruct (C1_teardown_until_first_failure demo_E demo_session "abc" demo_client Hreg)
    as (Htr & Hdel & _ & Hstop).
  split; [|exact Hdel].
  rewrite Htr.
  rewrite (Hstop [] {| guildID := "g1" |} [ {| guildID := "g2" |} ]);
    [reflexivity | reflexivity | intros s' Hin; inversion Hin | reflexivity].
Defined.

(** The specification's wording of C1 fails: with subscriptions for
    ["g1"] and ["g2"] and a [kill] that raises for ["g1"], the close
    handler never calls [kill] for ["g2"]. *)
Lemma C1_kill_failure_skips_rest :
  ¬ teardown_kills_all demo_E demo_session "abc".
Proof.
  intros Hall.
  assert (clients demo_session !! "abc" = Some demo_client) as Hreg
    by (vm_compute; reflexivity).
  destruct (Hall demo_client Hreg) as (added & Htr & Hperm & _).
  unfold on_close in Htr. rewrite Hreg in Htr. simpl in Htr.
  apply app_inv_head in Htr. subst added.
  apply Permutation_length in Hperm. simpl in Hperm. discriminate.
Qed.

(** C10, as the code has it.  The close listener of a channel tagged
    [clientID] deletes the registry entry of [clientID] whatever it is:
    after the close event the registry has no entry for [clientID].  When
    it had one, of any session and bound to any channel (so also one
    registered by a newer connection for the same identity), [kill] was
    called once per subscription of that session, in order, up to and
    including the first subscription whose [kill] raises: for all of them
    when none raises, and for none of those after a raising one. *)
Theorem C10_close_deletes_by_identity E cfg w ws clientID :
  getID w ws = Some clientID →
  listening (sock w ws) = true →
  readyState (sock w ws) ≠ CLOSED →
  clients (step E cfg w (InClose ws)) !! clientID = None
  ∧ ∀ session, clients w !! clientID = Some session →
      trace (step E cfg w (InClose ws))
      = trace w ++ map (λ s, EvKill session (guildID s))
                       (attempted E session (subscriptions session))
      ∧ ((∀ s, s ∈ subscriptions session →
               kill_throws E session (guildID s) = false) →
         attempted E session (subscriptions session) = subscriptions session)
      ∧ (∀ before s after,
           subscriptions session = before ++ s :: after →
           (∀ s', s' ∈ before → kill_throws E session (guildID s') = false) →
           kill_throws E session (guildID s) = true →
           attempted E session (subscriptions session) = before ++ [s]).
Proof.
  intros Hid Hl Hr. unfold getID in Hid. simpl.
  rewrite bool_decide_eq_true_2 by done. rewrite Hl, Hid.
  split; [apply on_close_removes|].
  intros session Hreg. repeat split_and.
  - unfold on_close.
    change (clients (closed_by_transport w ws)) with (clients w).
    rewrite Hreg. simpl. by rewrite trace_forEach_kill.
  - apply attempted_all.
  - intros before s after -> Hok Hfail. by apply attempted_stops.
Qed.

Lemma C10_close_deletes_witness :
  clients demo_two_channels !! "abc" = Some demo_newer_client
  ∧ readyState (sock (step demo_E demo_cfg demo_two_channels (InClose 0)) 1) = OPEN
  ∧ clients (step demo_E demo_cfg demo_two_channels (InClose 0)) !! "abc" = None
  ∧ trace (step demo_E demo_cfg demo_two_channels (InClose 0))
    = trace demo_two_channels ++ [EvKill demo_newer_client "g2"].
Proof.
  assert (clients demo_two_channels !! "abc" = Some demo_newer_client) as Hreg
    by (vm_compute; reflexivity).
  split; [exact Hreg|]. split; [vm_compute; reflexivity|].
  destruct (C10_close_deletes_by_identity demo_E demo_cfg demo_two_channels 0 "abc")
    as (Hdel & Hkills); [reflexivity | reflexivity | vm_compute; discriminate |].
  split; [exact Hdel|].
  destruct (Hkills demo_newer_client Hreg) as (Htr & Hall & _).
  rewrite Htr, Hall; [reflexivity|].
  intros s Hs. apply list_elem_of_singleton in Hs as ->. reflexivity.
Defined.

(** The wording of C10 fails: socket 0 connects as ["abc"] and never
    identifies, socket 1 connects as ["abc"], identifies and holds
    subscriptions for ["g1"] and ["g2"]; with a [kill] that raises for
    ["g1"], the close event of socket 0 removes the newer session without
    ever calling [kill] for ["g2"]. *)
Lemma C10_newer_session_not_fully_killed :
  ¬ close_kills_whole_session demo_E demo_cfg demo_newer_two_guilds 0 "abc".
Proof.
  intros Hall.
  assert (clients demo_newer_two_guilds !! "abc" = Some demo_newer_client_two_guilds)
    as Hreg by (vm_compute; reflexivity).
  destruct Hall as [_ Hkills];
    [reflexivity | reflexivity | vm_compute; discriminate |].
  destruct (Hkills demo_newer_client_two_guilds Hreg) as (added & Htr & Hperm).
  assert (trace (step demo_E demo_cfg demo_newer_two_guilds (InClose 0))
          = trace demo_newer_two_guilds ++ [EvKill demo_newer_client_two_guilds "g1"])
    as Hrun by (vm_compute; reflexivity).
  rewrite Hrun in Htr. apply app_inv_head in Htr. subst added.
  apply Permutation_length in Hperm. simpl in Hperm. discriminate.
Qed.

(** ** Shutdown (C8) *)

Lemma sock_close_if_open_ne w a s :
  a ≠ s → sock (close_if_open w a) s = sock w s.
Proof.
  intros Hne. unfold close_if_open. case_bool_decide; [done|].
  by apply sock_ws_close_ne.
Qed.

Lemma foldl_close_if_open w0 l :
  NoDup l → ∀ w, (∀ s, s ∈ l → sock w s = sock w0 s) →
  trace (foldl close_if_open w l)
    = trace w ++ map (λ s, EvClose s SERVER_CLOSED SERVER_CLOSED)
                     (filter (λ s, readyState (sock w0 s) = OPEN) l)
  ∧ clients (foldl close_if_open w l) = clients w.
Proof.
  induction 1 as [|a l Hnotin Hnd IH]; intros w Hsame; simpl.
  - by rewrite app_nil_r.
  - destruct (IH (close_if_open w a)) as [Htr Hcl].
    { intros s Hin. rewrite sock_close_if_open_ne.
      - apply Hsame. by apply list_elem_of_further.
      - intros ->. by apply Hnotin. }
    rewrite Htr, Hcl. clear Htr Hcl IH.
    assert (sock w a = sock w0 a) as Ha by apply Hsame, list_elem_of_here.
    unfold close_if_open. rewrite Ha.
    destruct (decide (readyState (sock w0 a) = OPEN)) as [Hopen|Hnopen].
    + rewrite bool_decide_eq_false_2 by (by intros Hn; apply Hn).
      rewrite filter_cons_True by done.
      rewrite trace_ws_close, clients_ws_close. simpl.
      by rewrite <- app_assoc.
    + rewrite bool_decide_eq_true_2 by done.
      by rewrite filter_cons_False by done.
Qed.

(** C8.  [close()] calls close with SERVER_CLOSED on every socket held by
    the server whose state is OPEN, once each and on no other, then closes
    the underlying acceptor, and leaves the registry empty. *)
Theorem C8_shutdown w :
  NoDup (server_clients w) →
  trace (close w)
    = trace w
      ++ map (λ s, EvClose s SERVER_CLOSED SERVER_CLOSED)
             (filter (λ s, readyState (sock w s) = OPEN) (server_clients w))
      ++ [EvServerClose]
  ∧ clients (close w) = ∅.
Proof.
  intros Hnd. unfold close. simpl. split; [|done].
  destruct (foldl_close_if_open w (server_clients w) Hnd w) as [-> _]; [done|].
  by rewrite <- app_assoc.
Qed.

Lemma C8_shutdown_witness :
  server_clients demo_three_sockets = [0; 1]
  ∧ trace (close demo_three_sockets)
    = trace demo_three_sockets
      ++ [ EvClose 0 SERVER_CLOSED SERVER_CLOSED;
           EvClose 1 SERVER_CLOSED SERVER_CLOSED;
           EvServerClose ]
  ∧ clients (close demo_three_sockets) = ∅.
Proof.
  split; [vm_compute; reflexivity|].
  destruct (C8_shutdown demo_three_sockets) as [Htr Hcl].
  - apply (bool_decide_unpack _). vm_compute. exact I.
  - split; [|exact Hcl]. rewrite Htr. vm_compute. reflexivity.
Defined.

(** ** Takeover (C2) *)

Lemma admitted_passes cfg request clientID :
  admitted cfg request clientID →
  includes (blockedIP cfg) (source_address request) = false
  ∧ nonempty clientID = true
  ∧ nonempty (password cfg) && differs (authorization request) (password cfg) = false.
Proof.
  intros (Hnb & _ & Hne & Hpw). repeat split_and.
  - apply includes_false. intros a Ha Hin. apply Hnb. by exists a.
  - by apply nonempty_true.
  - destruct Hpw as [-> | ->]; [done|].
    simpl. rewrite String.eqb_refl. simpl. apply andb_false_r.
Qed.

(** C2.  A new connection that passes admission for an identity whose
    registered session has a channel that is not closed: the handler
    closes the old channel with SESSION_EXPIRED, then sends HELLO on the
    new one, and these are its only calls; it leaves the registry as it
    was, so exactly one session is registered for the identity. *)
Theorem C2_takeover cfg w ws request now clientID old :
  admitted cfg request clientID →
  clients w !! clientID = Some old →
  readyState (sock w (socket old)) ≠ CLOSED →
  getID w ws = None →
  (handleConnection cfg w ws request now).2 = Normal
  ∧ trace (handleConnection cfg w ws request now).1
    = trace w ++ [ EvClose (socket old) SESSION_EXPIRED SESSION_EXPIRED;
                   EvSend ws (HELLO now) ]
  ∧ clients (handleConnection cfg w ws request now).1 = clients w
  ∧ ∃ session, clients (handleConnection cfg w ws request now).1 !! clientID = Some session
      ∧ ∀ session', clients (handleConnection cfg w ws request now).1 !! clientID
                      = Some session' → session' = session.
Proof.
  intros Hadm Hreg Hopen Hnew.
  destruct (admitted_passes _ _ _ Hadm) as (Hinc & Hne & Hauth).
  destruct Hadm as (_ & Hid & _ & _).
  assert (∃ w2, handleConnection cfg w ws request now
                = (listen (send w2 ws (HELLO now)) ws, Normal)
              ∧ trace w2 = trace w ++ [EvClose (socket old) SESSION_EXPIRED SESSION_EXPIRED]
              ∧ clients w2 = clients w) as (w2 & Heq & Htr & Hcl).
  { unfold handleConnection. rewrite Hinc, Hid, Hne, Hauth. simpl.
    unfold expire_previous. rewrite Hreg.
    rewrite bool_decide_eq_true_2 by done.
    unfold define_client_id.
    unfold getID in Hnew. rewrite tag_ws_close, Hnew.
    eexists. split; [reflexivity|]. simpl.
    by rewrite trace_ws_close, clients_ws_close. }
  rewrite Heq. simpl. rewrite Htr, Hcl, <- app_assoc. simpl.
  repeat split_and; try done.
  exists old. split; [done|]. intros session' Hs. congruence.
Qed.

Lemma C2_takeover_witness :
  clients demo_session !! "abc" = Some demo_client
  ∧ trace (handleConnection demo_cfg demo_session 5 demo_request 300).1
    = trace demo_session ++ [ EvClose 0 SESSION_EXPIRED SESSION_EXPIRED;
                              EvSend 5 (HELLO 300) ]
  ∧ clients (handleConnection demo_cfg demo_session 5 demo_request 300).1 !! "abc"
    = Some demo_client.
Proof.
  assert (clients demo_session !! "abc" = Some demo_client) as Hreg
    by (vm_compute; reflexivity).
  split; [exact Hreg|].
  destruct (C2_takeover demo_cfg demo_session 5 demo_request 300 "abc" demo_client)
    as (_ & Htr & Hcl & _).
  - split; [|split; [|split]].
    + intros (a & Ha & Hin). vm_compute in Hin. inversion Hin.
    + reflexivity.
    + discriminate.
    + left. reflexivity.
  - exact Hreg.
  - vm_compute. discriminate.
  - reflexivity.
  - split; [exact Htr|]. rewrite Hcl. exact Hreg.
Defined.

(** ** Identification and the READY reply (C9) *)

Lemma count_char_app c a b :
  count_char c (a +:+ b) = count_char c a + count_char c b.
Proof.
  induction a as [|x a IH]; simpl; [done|].
  rewrite IH. lia.
Qed.

Lemma count_char_get c s :
  count_char c s = 0 → ∀ i x, String.get i s = Some x → x ≠ c.
Proof.
  induction s as [|y s IH]; intros Hz i x Hget; simpl in *; [done|].
  destruct (Ascii.eqb_spec y c) as [->|Hne]; [lia|].
  destruct i as [|i]; [by injection Hget as <-|].
  by apply (IH Hz i).
Qed.

Lemma count_char_cons_ne c x s :
  x ≠ c → count_char c (String x s) = count_char c s.
Proof. intros Hne. simpl. by destruct (Ascii.eqb_spec x c). Qed.

Lemma b64_char_no_dot n : b64_char n ≠ "."%char.
Proof.
  unfold b64_char.
  destruct (String.get (N.to_nat n) b64_alphabet) as [x|] eqn:Hget; simpl.
  - by apply (count_char_get "." b64_alphabet eq_refl (N.to_nat n)).
  - discriminate.
Qed.

Lemma hex_char_no_dot n : hex_char n ≠ "."%char.
Proof.
  unfold hex_char.
  destruct (String.get (N.to_nat n) hex_alphabet) as [x|] eqn:Hget; simpl.
  - by apply (count_char_get "." hex_alphabet eq_refl (N.to_nat n)).
  - discriminate.
Qed.

Lemma base64_bytes_no_dot bs : count_char "." (base64_bytes bs) = 0.
Proof.
  assert (∀ n bs, (List.length bs ≤ n)%nat → count_char "." (base64_bytes bs) = 0) as Hlen.
  { clear bs. induction n as [|n IH]; intros bs Hle.
    - by destruct bs; [|simpl in Hle; lia].
    - destruct bs as [|a [|b [|c rest]]]; [done|..];
        cbn [base64_bytes];
        rewrite ?(count_char_cons_ne "." _ _ (b64_char_no_dot _)); try done.
      apply IH. simpl in Hle. lia. }
  by apply (Hlen (List.length bs)).
Qed.

Lemma base64_no_dot s : count_char "." (base64 s) = 0.
Proof. apply base64_bytes_no_dot. Qed.

Lemma hex_no_dot bs : count_char "." (hex bs) = 0.
Proof.
  induction bs as [|b bs IH]; [done|].
  cbn [hex]. by rewrite !(count_char_cons_ne "." _ _ (hex_char_no_dot _)).
Qed.

Lemma string_of_uint_no_dot d : count_char "." (NilEmpty.string_of_uint d) = 0.
Proof. induction d; simpl; done. Qed.

Lemma decimal_no_dot n : count_char "." (decimal n) = 0.
Proof.
  unfold decimal, NilZero.string_of_int, NilZero.string_of_uint.
  destruct (Z.to_int n) as [d|d]; destruct d; simpl;
    try done; apply string_of_uint_no_dot.
Qed.

Lemma mint_secret_two_dots clientID now random :
  count_char "." (mint_secret clientID now random) = 2.
Proof.
  unfold mint_secret.
  rewrite !count_char_app, base64_no_dot, decimal_no_dot, hex_no_dot.
  reflexivity.
Qed.

(** C9.  A successful identification registers a new session under the
    channel's identity, bound to the channel and holding the minted
    secret, and the only call it makes is to send READY on the channel
    with the session's public identifier as [client_id] and the secret as
    [access_token].  The secret is base64(identity), ".", the timestamp,
    ".", the random bytes in hex; it is not empty and has exactly two
    "." characters. *)
Theorem C9_ready_reply E cfg w ws msg now random clientID :
  getID w ws = Some clientID →
  clients w !! clientID = None →
  truthy (parse E msg) = true →
  get_prop (parse E msg) "op" = Some (JNum 10) →
  ∃ session,
    (handleWSMessage E cfg w ws msg now random).2 = Normal
    ∧ clients (handleWSMessage E cfg w ws msg now random).1
      = <[clientID := session]> (clients w)
    ∧ socket session = ws
    ∧ trace (handleWSMessage E cfg w ws msg now random).1
      = trace w ++ [EvSend ws (READY (id session) (secret_key session))]
    ∧ secret_key session
      = base64 clientID +:+ "." +:+ decimal now +:+ "." +:+ hex random
    ∧ secret_key session ≠ ""
    ∧ count_char "." (secret_key session) = 2.
Proof.
  intros Hid Hreg Ht Hop. unfold handleWSMessage.
  rewrite Ht, Hop. simpl.
  assert (clients_has w (getID w ws) = false) as ->.
  { apply not_true_iff_false. rewrite clients_has_true, Hid. simpl.
    rewrite Hreg. by intros [? ?]. }
  rewrite Hid. eexists. simpl. repeat split_and; try reflexivity.
  - simpl. intros Hempty.
    pose proof (mint_secret_two_dots clientID now random) as Hdots.
    rewrite Hempty in Hdots. discriminate.
  - apply mint_secret_two_dots.
Qed.

Lemma C9_ready_reply_witness :
  ∃ session,
    trace (handleWSMessage demo_E demo_cfg demo_connected 0 "identify" 300 demo_random).1
      = trace demo_connected ++ [EvSend 0 (READY (id session) "YWJj.300.00ff1a")]
    ∧ secret_key session = "YWJj.300.00ff1a"
    ∧ count_char "." (secret_key session) = 2.
Proof.
  destruct (C9_ready_reply demo_E demo_cfg demo_connected 0 "identify" 300
              demo_random "abc")
    as (session & _ & _ & _ & Htr & Hsec & _ & Hdots);
    [reflexivity | reflexivity | reflexivity | reflexivity |].
  exists session. rewrite Htr, Hdots, Hsec. by vm_compute.
Defined.

(** ** The registry invariant *)

Lemma tagged_mono w w' :
  registry_tagged w → tags_kept w w' →
  (∀ k c, clients w' !! k = Some c → clients w !! k = Some c) →
  registry_tagged w'.
Proof. intros Hinv Htags Hsub k c Hk. apply Htags, Hinv, Hsub, Hk. Qed.

Lemma tags_kept_refl w : tags_kept w w.
Proof. by intros s k. Qed.

Lemma tags_kept_trans w1 w2 w3 :
  tags_kept w1 w2 → tags_kept w2 w3 → tags_kept w1 w3.
Proof. intros H12 H23 s k Hs. by apply H23, H12. Qed.

Lemma tags_kept_ws_close w ws k : tags_kept w (ws_close w ws k).
Proof. intros s i. by rewrite getID_ws_close. Qed.

Lemma tags_kept_same_sockets w w' :
  sockets w' = sockets w → tags_kept w w'.
Proof. intros Heq s k. unfold getID, sock. by rewrite Heq. Qed.

Lemma define_client_id_spec w ws clientID w' :
  define_client_id w ws clientID = Some w' →
  clients w' = clients w ∧ trace w' = trace w ∧ tags_kept w w'
  ∧ getID w' ws = Some clientID.
Proof.
  unfold define_client_id.
  destruct (client_id_tag (sock w ws)) as [old|] eqn:Htag.
  - destruct (String.eqb_spec old clientID) as [->|]; [|done].
    intros [= <-]. repeat split_and; try done. apply tags_kept_refl.
  - intros [= <-]. repeat split_and; try done.
    + intros s k. unfold getID. rewrite sock_set_sock.
      destruct (decide (ws = s)) as [<-|]; [|done]. by rewrite Htag.
    + unfold getID. by rewrite sock_set_sock, decide_True.
Qed.

Lemma tags_kept_listen w ws : tags_kept w (listen w ws).
Proof.
  intros s k. unfold listen, getID. rewrite sock_set_sock.
  by destruct (decide (ws = s)) as [<-|].
Qed.

Lemma expire_previous_spec w clientID :
  clients (expire_previous w clientID) = clients w
  ∧ tags_kept w (expire_previous w clientID).
Proof.
  unfold expire_previous.
  destruct (clients w !! clientID) as [c|]; [|split; [done|apply tags_kept_refl]].
  case_bool_decide; [|split; [done|apply tags_kept_refl]].
  split; [apply clients_ws_close | apply tags_kept_ws_close].
Qed.

Lemma handleConnection_keeps cfg w ws request now :
  clients (handleConnection cfg w ws request now).1 = clients w
  ∧ tags_kept w (handleConnection cfg w ws request now).1.
Proof.
  unfold handleConnection.
  destruct (includes _ _);
    [split; [apply clients_ws_close | apply tags_kept_ws_close]|].
  destruct (header_client_id request) as [clientID|];
    [|split; [apply clients_ws_close | apply tags_kept_ws_close]].
  destruct (negb (nonempty clientID));
    [split; [apply clients_ws_close | apply tags_kept_ws_close]|].
  destruct (nonempty (password cfg) && _);
    [split; [apply clients_ws_close | apply tags_kept_ws_close]|].
  destruct (expire_previous_spec w clientID) as [Hcl Htags].
  destruct (define_client_id _ ws clientID) as [w2|] eqn:Hdef; simpl; [|done].
  destruct (define_client_id_spec _ _ _ _ Hdef) as (Hcl2 & _ & Htags2 & _).
  split; [congruence|].
  eapply tags_kept_trans; [exact Htags|].
  eapply tags_kept_trans; [exact Htags2|].
  apply (tags_kept_listen (send w2 ws (HELLO now)) ws).
Qed.

Lemma dispatch_keeps w client message :
  clients (dispatch w client message).1 = clients w
  ∧ sockets (dispatch w client message).1 = sockets w.
Proof.
  unfold dispatch.
  repeat (match goal with
          | |- context [match ?x with _ => _ end] => destruct x
          end; simpl; try done).
Qed.

Lemma handleWSMessage_tagged E cfg w ws msg now random :
  registry_tagged w →
  registry_tagged (handleWSMessage E cfg w ws msg now random).1.
Proof.
  intros Hinv. unfold handleWSMessage.
  assert (∀ k, registry_tagged (ws_close w ws k)) as Hclose.
  { intros k. eapply tagged_mono; [exact Hinv | apply tags_kept_ws_close |].
    intros i c. by rewrite clients_ws_close. }
  destruct (negb (truthy (parse E msg))); [apply Hclose|].
  destruct (strict_eq _ (JNum 10)).
  - destruct (clients_has w (getID w ws)); [apply Hclose|].
    destruct (getID w ws) as [clientID|] eqn:Hid; [|done].
    intros k c. simpl. rewrite lookup_insert.
    destruct (decide (clientID = k)) as [<-|Hne].
    + intros [= <-]. exact Hid.
    + apply Hinv.
  - destruct (clients_get w (getID w ws)) as [client|]; [|apply Hclose].
    destruct (dispatch_keeps w client (parse E msg)) as [Hcl Hso].
    eapply tagged_mono; [exact Hinv | by apply tags_kept_same_sockets |].
    intros k c. by rewrite Hcl.
Qed.

Lemma on_close_tagged E w clientID :
  registry_tagged w → registry_tagged (on_close E w clientID).
Proof.
  intros Hinv.
  eapply tagged_mono; [exact Hinv | |].
  - apply tags_kept_same_sockets. unfold on_close. simpl.
    destruct (clients w !! clientID); [|done].
    apply sockets_forEach_kill.
  - intros k c. rewrite clients_on_close.
    rewrite lookup_delete. by case_decide.
Qed.

Lemma step_tagged E cfg w i :
  registry_tagged w → registry_tagged (step E cfg w i).
Proof.
  intros Hinv. destruct i as [ws request now|ws msg now random|ws| |clientID guild a];
    simpl.
  - destruct (sockets w !! ws) eqn:Hfresh; [done|].
    destruct (handleConnection_keeps cfg (accepted_by_transport w ws) ws request now)
      as [Hcl Htags].
    eapply tagged_mono; [exact Hinv | | intros k c; by rewrite Hcl].
    eapply tags_kept_trans; [|exact Htags].
    intros s k. unfold getID, sock. simpl. rewrite lookup_insert.
    destruct (decide (ws = s)) as [<-|]; [|done]. by rewrite Hfresh.
  - destruct (_ && _); [|done]. by apply handleWSMessage_tagged.
  - case_bool_decide; [|done].
    assert (registry_tagged (closed_by_transport w ws)) as Hinv'.
    { eapply tagged_mono; [exact Hinv | | done].
      intros s k. unfold getID, sock. simpl. rewrite lookup_insert.
      by destruct (decide (ws = s)) as [<-|]. }
    destruct (listening (sock w ws)); [|done].
    destruct (client_id_tag (sock w ws)); [|done].
    by apply on_close_tagged.
  - intros k c. unfold close. simpl. by rewrite lookup_empty.
  - intros k c. simpl. rewrite lookup_alter.
    destruct (decide (clientID = k)) as [<-|]; [|apply Hinv].
    destruct (clients w !! clientID) as [c0|] eqn:Hc0; [|done].
    intros [= <-]. simpl. by apply Hinv.
Qed.

(** In every state the server can reach, a registered session sits under
    the identity of its own channel. *)
Lemma reachable_tagged E cfg w : reachable E cfg w → registry_tagged w.
Proof.
  intros [inputs <-]. unfold run.
  induction inputs as [|i inputs IH] using rev_ind.
  - intros k c. simpl. by rewrite lookup_empty.
  - rewrite foldl_app. simpl. by apply step_tagged.
Qed.

(** ** Dispatch of voice messages (C3, C4) *)

Lemma strict_eq_str a s : strict_eq a (JStr s) = true ↔ a = JStr s.
Proof.
  destruct a; simpl; try (split; [discriminate|done]).
  destruct (String.eqb_spec s0 s); split; congruence.
Qed.

Lemma strict_eq_num a n : strict_eq a (JNum n) = true ↔ a = JNum n.
Proof.
  destruct a; simpl; try (split; [discriminate|done]).
  destruct (Z.eqb_spec n0 n); split; congruence.
Qed.

Lemma truthy_has_props v k : truthy v = true → is_Some (get_prop v k).
Proof. destruct v; simpl; try done; by eexists. Qed.

(** A decoded message that is not an identify request, on a channel whose
    identity has a session, goes to the switch. *)
Lemma handleWSMessage_dispatches E cfg w ws msg now random clientID session :
  getID w ws = Some clientID →
  clients w !! clientID = Some session →
  truthy (parse E msg) = true →
  get_prop (parse E msg) "op" ≠ Some (JNum 10) →
  handleWSMessage E cfg w ws msg now random = dispatch w session (parse E msg).
Proof.
  intros Hid Hreg Ht Hop. unfold handleWSMessage. rewrite Ht. simpl.
  destruct (truthy_has_props _ "op" Ht) as [op Hget]. rewrite Hget in *. simpl.
  destruct (strict_eq op (JNum 10)) eqn:Hten.
  { apply strict_eq_num in Hten. congruence. }
  rewrite Hid. simpl. by rewrite Hreg.
Qed.

(** C4.  A voice-state-update message on an identified channel, in a state
    the server can reach.  When its payload has no (truthy) [guild_id] or
    [session_id], or its [user_id] is not the identity of the channel, no
    adapter is called: the trace stays as it was.  When all three hold,
    the handler returns and calls [onVoiceStateUpdate] with the payload on
    the adapter the session keeps for that [guild_id], if there is one,
    and makes no other call. *)
Theorem C4_voice_state_update E cfg w ws msg now random clientID session :
  reachable E cfg w →
  getID w ws = Some clientID →
  clients w !! clientID = Some session →
  truthy (parse E msg) = true →
  get_prop (parse E msg) "op" ≠ Some (JNum 10) →
  get_prop (parse E msg) "t" = Some (JStr VoiceStateUpdate) →
  (truthy (payload_field (parse E msg) "guild_id") = false
   ∨ truthy (payload_field (parse E msg) "session_id") = false
   ∨ payload_field (parse E msg) "user_id" ≠ JStr clientID →
   trace (handleWSMessage E cfg w ws msg now random).1 = trace w)
  ∧ (truthy (payload_field (parse E msg) "guild_id") = true →
     truthy (payload_field (parse E msg) "session_id") = true →
     payload_field (parse E msg) "user_id" = JStr clientID →
     (handleWSMessage E cfg w ws msg now random).2 = Normal
     ∧ trace (handleWSMessage E cfg w ws msg now random).1
       = trace w
         ++ match adapters_get session (payload_field (parse E msg) "guild_id") with
            | Some adapter =>
                [EvVoiceStateUpdate adapter
                   (default JUndefined (get_prop (parse E msg) "d"))]
            | None => []
            end).
Proof.
  intros Hreach Hid Hreg Ht Hop Htag.
  rewrite (handleWSMessage_dispatches E cfg w ws msg now random clientID session)
    by done.
  pose proof (reachable_tagged E cfg w Hreach clientID session Hreg) as Hown.
  unfold dispatch, payload_field. rewrite Htag, Hown. simpl.
  destruct (get_prop (parse E msg) "d") as [d|]; simpl;
    [|split; [done | intros Hg; discriminate Hg]].
  destruct (get_prop d "guild_id") as [guild_id|] eqn:Hguild; simpl;
    [|split; [done | intros Hg; discriminate Hg]].
  assert (is_Some (get_prop d "session_id")) as [session_id Hsess].
  { destruct d; simpl in *; try done; by eexists. }
  assert (is_Some (get_prop d "user_id")) as [user_id Huser].
  { destruct d; simpl in *; try done; by eexists. }
  rewrite Hsess, Huser. simpl. split.
  - intros [Hg | [Hs | Hu]].
    + by rewrite Hg.
    + rewrite Hs. by rewrite andb_false_r.
    + destruct (strict_eq user_id (JStr clientID)) eqn:Heq.
      { by apply strict_eq_str in Heq. }
      by rewrite andb_false_r.
  - intros Hg Hs ->. rewrite Hg, Hs. simpl. rewrite String.eqb_refl.
    destruct (adapters_get session guild_id); simpl; [done|].
    by rewrite app_nil_r.
Qed.

Lemma C4_voice_state_update_witness :
  trace (handleWSMessage demo_E demo_cfg demo_session 0 "state-other" 400 demo_random).1
    = trace demo_session
  ∧ trace (handleWSMessage demo_E demo_cfg demo_session 0 "state" 400 demo_random).1
    = trace demo_session
      ++ [EvVoiceStateUpdate 8
            (JObj [("guild_id", JStr "g2"); ("session_id", JStr "s1");
                   ("user_id", JStr "abc")])].
Proof.
  assert (reachable demo_E demo_cfg demo_session) as Hreach
    by (eexists; reflexivity).
  assert (clients demo_session !! "abc" = Some demo_client) as Hreg
    by (vm_compute; reflexivity).
  split.
  - destruct (C4_voice_state_update demo_E demo_cfg demo_session 0 "state-other"
                400 demo_random "abc" demo_client) as [Hdrop _];
      [exact Hreach | reflexivity | exact Hreg | reflexivity
      | discriminate | reflexivity |].
    apply Hdrop. right. right. discriminate.
  - destruct (C4_voice_state_update demo_E demo_cfg demo_session 0 "state"
                400 demo_random "abc" demo_client) as [_ Hfwd];
      [exact Hreach | reflexivity | exact Hreg | reflexivity
      | discriminate | reflexivity |].
    destruct Hfwd as [_ Htr]; [reflexivity | reflexivity | reflexivity |].
    rewrite Htr. reflexivity.
Defined.

(** What holds of C3: with a payload to read, an unknown guild or a
    missing [guild_id] makes the switch do nothing at all. *)
Lemma dispatch_routing_miss w client message d :
  get_prop message "d" = Some d →
  is_Some (get_prop d "guild_id") →
  adapters_get client (payload_field message "guild_id") = None →
  dispatch w client message = (w, Normal).
Proof.
  intros Hd [guild_id Hg] Hmiss. unfold dispatch, payload_field in *.
  destruct (get_prop message "t") as [t|] eqn:Ht;
    [|destruct message; simpl in *; done].
  rewrite Hd in *. simpl in *. rewrite Hg in *. simpl in *. rewrite Hmiss.
  repeat (match goal with
          | |- context [if ?x then _ else _] => destruct x
          end; try done).
Qed.

(** A voice message without a payload makes the switch raise: reading
    [guild_id] of [undefined] or [null] is a TypeError. *)
Lemma dispatch_missing_payload_raises w client message :
  get_prop message "t" = Some (JStr VoiceStateUpdate)
  ∨ get_prop message "t" = Some (JStr VoiceServerUpdate) →
  get_prop message "d" = Some JUndefined ∨ get_prop message "d" = Some JNull →
  dispatch w client message = (w, Throw TypeError).
Proof.
  intros [Ht | Ht] [Hd | Hd]; unfold dispatch; by rewrite Ht, Hd.
Qed.

(** C3 fails on the code.  The identified client ["abc"] sends a
    voice-state-update, or a voice-server-update, that has no data
    payload: [handleWSMessage] does not drop it but raises a TypeError. *)
Theorem C3_missing_payload_raises :
  clients demo_session !! "abc" = Some demo_client
  ∧ getID demo_session 0 = Some "abc"
  ∧ parse demo_E "state-no-d" = JObj [("t", JStr "VOICE_STATE_UPDATE")]
  ∧ handleWSMessage demo_E demo_cfg demo_session 0 "state-no-d" 400 demo_random
    = (demo_session, Throw TypeError)
  ∧ parse demo_E "server-no-d" = JObj [("t", JStr "VOICE_SERVER_UPDATE")]
  ∧ handleWSMessage demo_E demo_cfg demo_session 0 "server-no-d" 400 demo_random
    = (demo_session, Throw TypeError).
Proof.
  assert (clients demo_session !! "abc" = Some demo_client) as Hreg
    by (vm_compute; reflexivity).
  split; [exact Hreg|]. split; [reflexivity|]. split; [reflexivity|].
  split; [|split; [reflexivity|]].
  - rewrite (handleWSMessage_dispatches demo_E demo_cfg demo_session 0 "state-no-d"
               400 demo_random "abc" demo_client)
      by first [exact Hreg | reflexivity | (vm_compute; discriminate)].
    apply dispatch_missing_payload_raises; [by left | by left].
  - rewrite (handleWSMessage_dispatches demo_E demo_cfg demo_session 0 "server-no-d"
               400 demo_random "abc" demo_client)
      by first [exact Hreg | reflexivity | (vm_compute; discriminate)].
    apply dispatch_missing_payload_raises; [by right | by left].
Qed.

(** * Further properties of the handlers *)

(** ** The message listener *)

Lemma handleWSMessage_identifies E cfg w ws msg now random clientID :
  getID w ws = Some clientID →
  clients w !! clientID = None →
  truthy (parse E msg) = true →
  get_prop (parse E msg) "op" = Some (JNum 10) →
  handleWSMessage E cfg w ws msg now random
  = (send (set_clients w (<[clientID := fresh_client E cfg ws clientID now random]>
                            (clients w)))
          ws (READY (id (fresh_client E cfg ws clientID now random))
                    (mint_secret clientID now random)),
     Normal).
Proof.
  intros Hid Hreg Ht Hop. unfold handleWSMessage. rewrite Ht, Hop. simpl.
  assert (clients_has w (getID w ws) = false) as ->.
  { apply not_true_iff_false. rewrite clients_has_true, Hid. simpl.
    rewrite Hreg. by intros [? ?]. }
  by rewrite Hid.
Qed.

Lemma handleWSMessage_already E cfg w ws msg now random :
  is_Some (clients_get w (getID w ws)) →
  truthy (parse E msg) = true →
  get_prop (parse E msg) "op" = Some (JNum 10) →
  handleWSMessage E cfg w ws msg now random = (ws_close w ws ALREADY_CONNECTED, Normal).
Proof.
  intros Hhas Ht Hop. unfold handleWSMessage. rewrite Ht, Hop. simpl.
  by rewrite (proj2 (clients_has_true _ _) Hhas).
Qed.

Lemma handleWSMessage_other E cfg w ws msg now random :
  truthy (parse E msg) = true →
  get_prop (parse E msg) "op" ≠ Some (JNum 10) →
  handleWSMessage E cfg w ws msg now random
  = match clients_get w (getID w ws) with
    | None => (ws_close w ws NOT_IDENTIFIED, Normal)
    | Some client => dispatch w client (parse E msg)
    end.
Proof.
  intros Ht Hop. unfold handleWSMessage. rewrite Ht. simpl.
  destruct (truthy_has_props _ "op" Ht) as [op Hget]. rewrite Hget in *. simpl.
  destruct (strict_eq op (JNum 10)) eqn:Hten; [|done].
  apply strict_eq_num in Hten. congruence.
Qed.

(** X1.  A decoded message that is not an identify request, on a channel
    whose identity has no session in the registry (or that has no
    identity at all), closes the channel with NOT_IDENTIFIED and does
    nothing else. *)
Theorem X1_not_identified E cfg w ws msg now random :
  truthy (parse E msg) = true →
  get_prop (parse E msg) "op" ≠ Some (JNum 10) →
  clients_get w (getID w ws) = None →
  rejected_with w ws NOT_IDENTIFIED (handleWSMessage E cfg w ws msg now random).
Proof.
  intros Ht Hop Hnone.
  rewrite handleWSMessage_other by done. rewrite Hnone.
  apply ws_close_rejected.
Qed.

Lemma X1_not_identified_witness :
  rejected_with demo_connected 0 NOT_IDENTIFIED
    (handleWSMessage demo_E demo_cfg demo_connected 0 "state" 150 demo_random).
Proof.
  apply (X1_not_identified demo_E demo_cfg demo_connected 0 "state" 150 demo_random).
  - reflexivity.
  - vm_compute. discriminate.
  - reflexivity.
Defined.

Lemma get_prop_defined v k : v ≠ JUndefined → v ≠ JNull → is_Some (get_prop v k).
Proof. destruct v; simpl; try done; by eexists. Qed.

(** X2.  A voice-server-update with a payload (a [d] that is neither
    [undefined] nor [null]) goes to the adapter the session keeps for the
    payload's [guild_id], whatever its [user_id] or [session_id]: the
    handler returns, leaves the registry alone, and its only call is
    [onVoiceServerUpdate] with the payload on that adapter, or no call
    when the session has no adapter for the guild. *)
Theorem X2_voice_server_update E cfg w ws msg now random clientID session d :
  getID w ws = Some clientID →
  clients w !! clientID = Some session →
  truthy (parse E msg) = true →
  get_prop (parse E msg) "op" ≠ Some (JNum 10) →
  get_prop (parse E msg) "t" = Some (JStr VoiceServerUpdate) →
  get_prop (parse E msg) "d" = Some d →
  d ≠ JUndefined →
  d ≠ JNull →
  (handleWSMessage E cfg w ws msg now random).2 = Normal
  ∧ clients (handleWSMessage E cfg w ws msg now random).1 = clients w
  ∧ trace (handleWSMessage E cfg w ws msg now random).1
    = trace w
      ++ match adapters_get session (payload_field (parse E msg) "guild_id") with
         | Some adapter => [EvVoiceServerUpdate adapter d]
         | None => []
         end.
Proof.
  intros Hid Hreg Ht Hop Htag Hd Hnu Hnn.
  rewrite handleWSMessage_other by done. rewrite Hid. simpl. rewrite Hreg.
  unfold dispatch, payload_field. rewrite Htag, Hd. simpl.
  destruct (get_prop_defined d "guild_id" Hnu Hnn) as [guild_id ->]. simpl.
  destruct (adapters_get session guild_id); simpl; [done|].
  by rewrite app_nil_r.
Qed.

Lemma X2_voice_server_update_witness :
  trace (handleWSMessage more_E demo_cfg demo_two_sessions 0 "server-other" 400
           demo_random).1
  = trace demo_two_sessions
    ++ [EvVoiceServerUpdate 8
          (JObj [("guild_id", JStr "g2"); ("user_id", JStr "mallory")])].
Proof.
  destruct (X2_voice_server_update more_E demo_cfg demo_two_sessions 0 "server-other"
              400 demo_random "abc" demo_client
              (JObj [("guild_id", JStr "g2"); ("user_id", JStr "mallory")]))
    as (_ & _ & Htr);
    [reflexivity | vm_compute; reflexivity | reflexivity | vm_compute; discriminate
    | reflexivity | reflexivity | discriminate | discriminate |].
  rewrite Htr. reflexivity.
Defined.

(** X3.  A decoded message from an identified channel whose [t] is
    neither of the two voice types is ignored: the handler returns and
    the world is exactly as before, whatever else the message holds. *)
Theorem X3_other_type_ignored E cfg w ws msg now random clientID session t :
  getID w ws = Some clientID →
  clients w !! clientID = Some session →
  truthy (parse E msg) = true →
  get_prop (parse E msg) "op" ≠ Some (JNum 10) →
  get_prop (parse E msg) "t" = Some t →
  t ≠ JStr VoiceStateUpdate →
  t ≠ JStr VoiceServerUpdate →
  handleWSMessage E cfg w ws msg now random = (w, Normal).
Proof.
  intros Hid Hreg Ht Hop Htag Hn1 Hn2.
  rewrite handleWSMessage_other by done. rewrite Hid. simpl. rewrite Hreg.
  unfold dispatch. rewrite Htag.
  destruct (strict_eq t (JStr VoiceStateUpdate)) eqn:H1.
  { by apply strict_eq_str in H1. }
  destruct (strict_eq t (JStr VoiceServerUpdate)) eqn:H2; [|done].
  by apply strict_eq_str in H2.
Qed.

Lemma X3_other_type_ignored_witness :
  handleWSMessage more_E demo_cfg demo_two_sessions 0 "presence" 400 demo_random
  = (demo_two_sessions, Normal).
Proof.
  apply (X3_other_type_ignored more_E demo_cfg demo_two_sessions 0 "presence" 400
           demo_random "abc" demo_client (JStr "PRESENCE_UPDATE")).
  - reflexivity.
  - vm_compute. reflexivity.
  - reflexivity.
  - vm_compute. discriminate.
  - reflexivity.
  - discriminate.
  - discriminate.
Defined.

Lemma dispatch_calls w client message :
  ∃ added,
    trace (dispatch w client message).1 = trace w ++ added
    ∧ (List.length added ≤ 1)%nat
    ∧ Forall (λ e, ∃ a d guild,
                (e = EvVoiceStateUpdate a d ∨ e = EvVoiceServerUpdate a d)
                ∧ adapters client !! guild = Some a) added.
Proof.
  assert (∀ guild_id a d mk,
            adapters_get client guild_id = Some a →
            (mk = EvVoiceStateUpdate ∨ mk = EvVoiceServerUpdate) →
            ∃ added, trace (emit w (mk a d)) = trace w ++ added
                     ∧ (List.length added ≤ 1)%nat
                     ∧ Forall (λ e, ∃ a d guild,
                                 (e = EvVoiceStateUpdate a d ∨ e = EvVoiceServerUpdate a d)
                                 ∧ adapters client !! guild = Some a) added) as Hcall.
  { intros guild_id a d mk Hget Hmk. exists [mk a d]. split; [done|]. split; [done|].
    constructor; [|constructor].
    destruct guild_id; simpl in Hget; try done.
    exists a, d, s. split; [|done]. destruct Hmk as [-> | ->]; [by left | by right]. }
  assert (∃ added, trace w = trace w ++ added
                   ∧ (List.length added ≤ 1)%nat
                   ∧ Forall (λ e, ∃ a d guild,
                               (e = EvVoiceStateUpdate a d ∨ e = EvVoiceServerUpdate a d)
                               ∧ adapters client !! guild = Some a) added) as Hnone.
  { exists []. rewrite app_nil_r. split; [done|]. split; [simpl; lia | constructor]. }
  unfold dispatch.
  destruct (get_prop message "t") as [t|]; [|exact Hnone].
  destruct (strict_eq t (JStr VoiceStateUpdate)).
  - destruct (get_prop message "d" ≫= _) as [guild_id|]; [|exact Hnone].
    destruct (_ && _); [|exact Hnone].
    destruct (adapters_get client guild_id) as [a|] eqn:Hget; [|exact Hnone].
    eapply Hcall; [exact Hget | by left].
  - destruct (strict_eq t (JStr VoiceServerUpdate)); [|exact Hnone].
    destruct (get_prop message "d" ≫= _) as [guild_id|]; [|exact Hnone].
    destruct (adapters_get client guild_id) as [a|] eqn:Hget; [|exact Hnone].
    eapply Hcall; [exact Hget | by right].
Qed.

(** X4.  Whatever a channel sends, its message listener makes at most one
    call, and only a call of its own: it closes or writes to that very
    channel, or calls an adapter kept by the session registered under the
    channel's identity.  It never kills a subscription, never closes the
    acceptor, never touches another channel or another session's
    adapters. *)
Theorem X4_message_calls_are_own E cfg w ws msg now random :
  ∃ added,
    trace (handleWSMessage E cfg w ws msg now random).1 = trace w ++ added
    ∧ (List.length added ≤ 1)%nat
    ∧ Forall (own_call w ws) added.
Proof.
  assert (∀ k, ∃ added,
            trace (ws_close w ws k) = trace w ++ added
            ∧ (List.length added ≤ 1)%nat ∧ Forall (own_call w ws) added) as Hclose.
  { intros k. exists [EvClose ws k k]. rewrite trace_ws_close.
    split; [done|]. split; [done|]. by repeat constructor. }
  unfold handleWSMessage.
  destruct (negb (truthy (parse E msg))); [apply Hclose|].
  destruct (strict_eq _ (JNum 10)).
  - destruct (clients_has w (getID w ws)); [apply Hclose|].
    destruct (getID w ws) as [clientID|] eqn:Hid.
    + eexists [_]. simpl. split; [reflexivity|]. split; [done|].
      by repeat constructor.
    + exists []. simpl. rewrite app_nil_r. split; [done|]. split; [lia|constructor].
  - destruct (clients_get w (getID w ws)) as [client|] eqn:Hget; [|apply Hclose].
    destruct (dispatch_calls w client (parse E msg)) as (added & Htr & Hlen & Hall).
    exists added. split; [done|]. split; [done|].
    eapply Forall_impl; [exact Hall|].
    intros e (a & d & guild & [-> | ->] & Ha); simpl; by exists client, guild.
Qed.

(** X5.  The message listener never removes or replaces a session: the
    registry entry of every identity other than the channel's, and of
    every identity that already has a session, is after the message what
    it was before. *)
Theorem X5_message_keeps_sessions E cfg w ws msg now random k :
  getID w ws ≠ Some k ∨ is_Some (clients w !! k) →
  clients (handleWSMessage E cfg w ws msg now random).1 !! k = clients w !! k.
Proof.
  intros Hk. unfold handleWSMessage.
  destruct (negb (truthy (parse E msg))); [cbn [fst]; by rewrite clients_ws_close|].
  destruct (strict_eq _ (JNum 10)).
  - destruct (clients_has w (getID w ws)) eqn:Hhas; [cbn [fst]; by rewrite clients_ws_close|].
    destruct (getID w ws) as [clientID|] eqn:Hid; [|done].
    simpl. rewrite lookup_insert. case_decide as Heq; [|done]. subst k.
    destruct Hk as [Hne | Hsome]; [done|].
    apply not_true_iff_false in Hhas. exfalso. apply Hhas.
    apply clients_has_true. exact Hsome.
  - destruct (clients_get w (getID w ws)) as [client|]; [|cbn [fst]; by rewrite clients_ws_close].
    by destruct (dispatch_keeps w client (parse E msg)) as [-> _].
Qed.

Lemma X5_message_keeps_sessions_witness :
  clients (handleWSMessage more_E demo_cfg demo_two_sessions 0 "identify-again" 400
             demo_random).1 !! "abc" = Some demo_client
  ∧ clients (handleWSMessage more_E demo_cfg demo_connected 0 "identify" 400
               demo_random).1 !! "def" = None.
Proof.
  split.
  - rewrite (X5_message_keeps_sessions more_E demo_cfg demo_two_sessions 0
               "identify-again" 400 demo_random "abc").
    + vm_compute. reflexivity.
    + right. vm_compute. by eexists.
  - rewrite (X5_message_keeps_sessions more_E demo_cfg demo_connected 0
               "identify" 400 demo_random "def").
    + reflexivity.
    + left. vm_compute. discriminate.
Defined.

(** X6.  Identifying twice on one connection: the first identify
    registers a session, the second is answered by closing the channel
    with ALREADY_CONNECTED and mints nothing, so the session and secret of
    the first identify stay registered. *)
Theorem X6_second_identify_rejected E cfg w ws msg1 now1 random1 msg2 now2 random2
    clientID :
  getID w ws = Some clientID →
  clients w !! clientID = None →
  truthy (parse E msg1) = true →
  get_prop (parse E msg1) "op" = Some (JNum 10) →
  truthy (parse E msg2) = true →
  get_prop (parse E msg2) "op" = Some (JNum 10) →
  rejected_with (handleWSMessage E cfg w ws msg1 now1 random1).1 ws ALREADY_CONNECTED
    (handleWSMessage E cfg (handleWSMessage E cfg w ws msg1 now1 random1).1
       ws msg2 now2 random2)
  ∧ clients (handleWSMessage E cfg (handleWSMessage E cfg w ws msg1 now1 random1).1
               ws msg2 now2 random2).1 !! clientID
    = Some (fresh_client E cfg ws clientID now1 random1).
Proof.
  intros Hid Hreg Ht1 Hop1 Ht2 Hop2.
  rewrite (handleWSMessage_identifies E cfg w ws msg1 now1 random1 clientID) by done.
  simpl. rewrite handleWSMessage_already; [| |done|done].
  - split; [apply ws_close_rejected|].
    simpl. rewrite clients_ws_close. simpl. apply lookup_insert_eq.
  - unfold getID, sock. simpl. fold (sock w ws). fold (getID w ws).
    rewrite Hid. simpl. rewrite lookup_insert_eq. by eexists.
Qed.

Lemma X6_second_identify_rejected_witness :
  trace (handleWSMessage more_E demo_cfg
           (handleWSMessage more_E demo_cfg demo_connected 0 "identify" 200
              demo_random).1
           0 "identify-again" 300 []).1
  = trace demo_connected
    ++ [ EvSend 0 (READY "client-0" "YWJj.200.00ff1a");
         EvClose 0 ALREADY_CONNECTED ALREADY_CONNECTED ]
  ∧ secret_key <$> clients (handleWSMessage more_E demo_cfg
           (handleWSMessage more_E demo_cfg demo_connected 0 "identify" 200
              demo_random).1
           0 "identify-again" 300 []).1 !! "abc"
    = Some "YWJj.200.00ff1a".
Proof.
  destruct (X6_second_identify_rejected more_E demo_cfg demo_connected 0
              "identify" 200 demo_random "identify-again" 300 [] "abc")
    as ((_ & Htr & _) & Hcl);
    [reflexivity | reflexivity | reflexivity | reflexivity | reflexivity
    | reflexivity |].
  split.
  - rewrite Htr. reflexivity.
  - rewrite Hcl. reflexivity.
Defined.

(** ** The connection listener *)

Lemma expire_previous_trace w clientID :
  (∃ previous, clients w !! clientID = Some previous
     ∧ readyState (sock w (socket previous)) ≠ CLOSED
     ∧ expire_previous w clientID = ws_close w (socket previous) SESSION_EXPIRED)
  ∨ ((∀ previous, clients w !! clientID = Some previous →
        readyState (sock w (socket previous)) = CLOSED)
     ∧ expire_previous w clientID = w).
Proof.
  unfold expire_previous.
  destruct (clients w !! clientID) as [previous|]; [|right; split; [done|done]].
  case_bool_decide as Hstate.
  - left. by exists previous.
  - right. split; [|done]. intros ? [= <-].
    by destruct (decide (readyState (sock w (socket previous)) = CLOSED)).
Qed.

(** X7.  A connection that passes admission for an identity that has no
    session, or whose session's channel is already closed, expires
    nothing: the handler's only call is to send HELLO with the current
    time on the new channel, which it tags with the identity and starts
    listening on; the registry is left as it was. *)
Theorem X7_admission_without_takeover cfg w ws request now clientID :
  admitted cfg request clientID →
  (∀ previous, clients w !! clientID = Some previous →
     readyState (sock w (socket previous)) = CLOSED) →
  getID w ws = None →
  (handleConnection cfg w ws request now).2 = Normal
  ∧ trace (handleConnection cfg w ws request now).1 = trace w ++ [EvSend ws (HELLO now)]
  ∧ getID (handleConnection cfg w ws request now).1 ws = Some clientID
  ∧ listening (sock (handleConnection cfg w ws request now).1 ws) = true
  ∧ clients (handleConnection cfg w ws request now).1 = clients w.
Proof.
  intros Hadm Hprev Hnew.
  destruct (admitted_passes _ _ _ Hadm) as (Hinc & Hne & Hauth).
  destruct Hadm as (_ & Hid & _ & _).
  unfold handleConnection. rewrite Hinc, Hid, Hne, Hauth. simpl.
  destruct (expire_previous_trace w clientID) as [(p & Hp & Hopen & _) | [_ ->]].
  { by specialize (Hprev p Hp). }
  unfold define_client_id. unfold getID in Hnew. rewrite Hnew. simpl.
  unfold getID, listen, send. rewrite !sock_set_sock, !decide_True by done.
  simpl. unfold sock, emit, set_sock. simpl. by rewrite !lookup_insert_eq.
Qed.

Lemma X7_admission_without_takeover_witness :
  trace (handleConnection demo_locked_cfg demo_two_sessions 4
           (mkRequest None (Some "10.0.0.1") (Some "ghi") (Some "hunter2")) 500).1
  = trace demo_two_sessions ++ [EvSend 4 (HELLO 500)]
  ∧ getID (handleConnection demo_locked_cfg demo_two_sessions 4
             (mkRequest None (Some "10.0.0.1") (Some "ghi") (Some "hunter2")) 500).1 4
    = Some "ghi".
Proof.
  destruct (X7_admission_without_takeover demo_locked_cfg demo_two_sessions 4
              (mkRequest None (Some "10.0.0.1") (Some "ghi") (Some "hunter2")) 500 "ghi")
    as (_ & Htr & Htag & _).
  - split; [|split; [|split]].
    + by apply not_blocked_by_includes.
    + reflexivity.
    + discriminate.
    + right. reflexivity.
  - intros previous Hp. vm_compute in Hp. discriminate.
  - reflexivity.
  - by split.
Defined.

(** X8.  Whatever the request, the connection listener never writes the
    registry, and every call it makes is one of three: closing the new
    channel with a rejection code, sending it HELLO, or closing with
    SESSION_EXPIRED the channel of the session registered under the
    identity the request names.  No other channel is written to or
    closed. *)
Theorem X8_connection_calls cfg w ws request now :
  clients (handleConnection cfg w ws request now).1 = clients w
  ∧ ∃ added,
      trace (handleConnection cfg w ws request now).1 = trace w ++ added
      ∧ Forall (connection_call w ws request now) added.
Proof.
  split; [apply handleConnection_keeps|].
  assert (∀ k, k ≠ SESSION_EXPIRED →
            ∃ added, trace (ws_close w ws k) = trace w ++ added
                     ∧ Forall (connection_call w ws request now) added) as Hreject.
  { intros k Hk. exists [EvClose ws k k]. rewrite trace_ws_close. split; [done|].
    constructor; [|constructor]. left. by exists k. }
  unfold handleConnection.
  destruct (includes _ _); [by apply Hreject|].
  destruct (header_client_id request) as [clientID|] eqn:Hid; [|by apply Hreject].
  destruct (negb (nonempty clientID)); [by apply Hreject|].
  destruct (nonempty (password cfg) && _); [by apply Hreject|].
  assert (∃ expired, trace (expire_previous w clientID) = trace w ++ expired
                     ∧ Forall (connection_call w ws request now) expired)
    as (expired & Hexp & Hall).
  { destruct (expire_previous_trace w clientID) as [(p & Hp & _ & ->) | [_ ->]].
    - exists [EvClose (socket p) SESSION_EXPIRED SESSION_EXPIRED].
      rewrite trace_ws_close. split; [done|].
      constructor; [|constructor]. right. right. by exists clientID, p.
    - exists []. rewrite app_nil_r. split; [done|constructor]. }
  destruct (define_client_id _ ws clientID) as [w2|] eqn:Hdef; simpl.
  - destruct (define_client_id_spec _ _ _ _ Hdef) as (_ & Htr & _ & _).
    exists (expired ++ [EvSend ws (HELLO now)]).
    rewrite Htr, Hexp, app_assoc. split; [done|].
    apply Forall_app. split; [done|]. constructor; [|constructor].
    right. by left.
  - by exists expired.
Qed.

(** ** The close listener *)

Lemma server_clients_forEach_kill E c subs w :
  server_clients (forEach_kill E w c subs).1 = server_clients w.
Proof.
  revert w. induction subs as [|s rest IH]; intros w; simpl; [done|].
  destruct (kill_throws E c (guildID s)); simpl; [done|].
  by rewrite IH.
Qed.

Lemma sockets_on_close E w clientID : sockets (on_close E w clientID) = sockets w.
Proof.
  unfold on_close. simpl.
  destruct (clients w !! clientID); [|done]. apply sockets_forEach_kill.
Qed.

(** X9.  When the channel of an identity without a session closes (it
    connected and never identified, or its session is already gone), the
    close listener changes nothing: no call is made and the world is the
    one it started from. *)
Theorem X9_close_without_session E w clientID :
  clients w !! clientID = None →
  on_close E w clientID = w.
Proof.
  intros Hnone. unfold on_close, set_clients. rewrite Hnone.
  rewrite delete_id by done. by destruct w.
Qed.

Lemma X9_close_without_session_witness :
  on_close demo_E demo_connected "abc" = demo_connected.
Proof.
  apply (X9_close_without_session demo_E demo_connected "abc"). reflexivity.
Defined.

(** X10.  The close listener of one identity leaves every other identity
    alone: the sessions registered under other identities stay as they
    were, and no socket or member of the server's socket set changes. *)
Theorem X10_close_leaves_others E w clientID other :
  other ≠ clientID →
  clients (on_close E w clientID) !! other = clients w !! other
  ∧ sockets (on_close E w clientID) = sockets w
  ∧ server_clients (on_close E w clientID) = server_clients w.
Proof.
  intros Hne. rewrite clients_on_close, sockets_on_close.
  rewrite lookup_delete_ne by done. repeat split_and; try done.
  unfold on_close. simpl.
  destruct (clients w !! clientID); [|done]. apply server_clients_forEach_kill.
Qed.

Lemma X10_close_leaves_others_witness :
  clients (on_close more_E demo_two_sessions "abc") !! "abc" = None
  ∧ (subscriptions <$> clients (on_close more_E demo_two_sessions "abc") !! "def")
    = Some [ {| guildID := "g3" |} ].
Proof.
  split; [apply on_close_removes|].
  destruct (X10_close_leaves_others more_E demo_two_sessions "abc" "def") as (Hcl & _).
  - discriminate.
  - rewrite Hcl. vm_compute. reflexivity.
Defined.

(** X11.  Reconnecting: once the close listener of an identity has run,
    whatever session it found, an identify on a channel tagged with that
    identity succeeds: it registers a fresh session bound to that channel
    and replies READY with the new secret. *)
Theorem X11_identify_after_close E cfg w ws msg now random clientID :
  getID w ws = Some clientID →
  truthy (parse E msg) = true →
  get_prop (parse E msg) "op" = Some (JNum 10) →
  (handleWSMessage E cfg (on_close E w clientID) ws msg now random).2 = Normal
  ∧ clients (handleWSMessage E cfg (on_close E w clientID) ws msg now random).1
      !! clientID
    = Some (fresh_client E cfg ws clientID now random)
  ∧ trace (handleWSMessage E cfg (on_close E w clientID) ws msg now random).1
    = trace (on_close E w clientID)
      ++ [EvSend ws (READY (id (fresh_client E cfg ws clientID now random))
                           (mint_secret clientID now random))].
Proof.
  intros Hid Ht Hop.
  rewrite (handleWSMessage_identifies E cfg _ ws msg now random clientID);
    [| |apply on_close_removes|done|done].
  - simpl. by rewrite lookup_insert_eq.
  - unfold getID, sock. rewrite sockets_on_close. exact Hid.
Qed.

Lemma X11_identify_after_close_witness :
  (socket <$> clients demo_session !! "abc") = Some 0
  ∧ (socket <$> clients (handleWSMessage demo_E demo_cfg
                           (on_close demo_E
                              (handleConnection demo_cfg demo_session 5 demo_request 300).1
                              "abc")
                           5 "identify" 301 demo_random).1 !! "abc")
    = Some 5.
Proof.
  split; [vm_compute; reflexivity|].
  destruct (X11_identify_after_close demo_E demo_cfg
              (handleConnection demo_cfg demo_session 5 demo_request 300).1
              5 "identify" 301 demo_random "abc") as (_ & Hcl & _);
    [vm_compute; reflexivity | reflexivity | reflexivity |].
  rewrite Hcl. reflexivity.
Defined.

(** ** Shutdown *)

(** X12.  Sessions do not survive [close()]: after it, a decoded message
    that is not an identify request is answered on any channel, also one
    that was identified, by closing it with NOT_IDENTIFIED. *)
Theorem X12_after_shutdown_not_identified E cfg w ws msg now random :
  truthy (parse E msg) = true →
  get_prop (parse E msg) "op" ≠ Some (JNum 10) →
  rejected_with (close w) ws NOT_IDENTIFIED
    (handleWSMessage E cfg (close w) ws msg now random).
Proof.
  intros Ht Hop. rewrite handleWSMessage_other by done.
  assert (clients_get (close w) (getID (close w) ws) = None) as ->.
  { unfold clients_get. destruct (getID (close w) ws); simpl; [|done].
    apply lookup_empty. }
  apply ws_close_rejected.
Qed.

Lemma X12_after_shutdown_not_identified_witness :
  is_Some (clients demo_session !! "abc")
  ∧ trace (handleWSMessage demo_E demo_cfg (close demo_session) 0 "state" 400
             demo_random).1
    = trace demo_session
      ++ [ EvClose 0 SERVER_CLOSED SERVER_CLOSED; EvServerClose;
           EvClose 0 NOT_IDENTIFIED NOT_IDENTIFIED ].
Proof.
  split; [vm_compute; by eexists|].
  destruct (X12_after_shutdown_not_identified demo_E demo_cfg demo_session 0 "state"
              400 demo_random) as (_ & Htr & _);
    [reflexivity | vm_compute; discriminate |].
  rewrite Htr. vm_compute. reflexivity.
Defined.

(** ** The handshake order *)

Lemma hello_before_ready_app tr added :
  hello_before_ready tr → Forall not_ready added →
  hello_before_ready (tr ++ added).
Proof.
  intros Hinv Hall pre ws c a post Heq.
  apply app_eq_inv in Heq as [(k & Htr & Hk) | (k & Hpre & Hadd)].
  - destruct k as [|e k]; simpl in Hk.
    + subst added. by apply Forall_cons_1 in Hall as [[] _].
    + injection Hk as <- _. by apply (Hinv pre ws c a k).
  - subst added. apply Forall_app in Hall as [_ Hall].
    by apply Forall_cons_1 in Hall as [[] _].
Qed.

Lemma hello_before_ready_snoc tr ws c a :
  hello_before_ready tr → (∃ ready, EvSend ws (HELLO ready) ∈ tr) →
  hello_before_ready (tr ++ [EvSend ws (READY c a)]).
Proof.
  intros Hinv Hhello pre ws' c' a' post Heq.
  apply app_eq_inv in Heq as [(k & Htr & Hk) | (k & Hpre & Hadd)].
  - destruct k as [|e k]; simpl in Hk.
    + injection Hk as -> _ _ _. rewrite app_nil_r in Htr. by subst pre.
    + injection Hk as <- _. by apply (Hinv pre ws' c' a' k).
  - destruct k as [|e k]; simpl in Hadd.
    + injection Hadd as -> _ _ _. rewrite app_nil_r in Hpre. by subst pre.
    + injection Hadd as _ Hk. by destruct k.
Qed.

Lemma handshake_step_inv w w' :
  handshake_inv w → handshake_step w w' → handshake_inv w'.
Proof.
  intros [Hord Hlis] (added & Htr & Hadded & Hnew). split.
  - rewrite Htr. destruct Hadded as [Hall | (ws & c & a & -> & Hl)].
    + by apply hello_before_ready_app.
    + apply hello_before_ready_snoc; [done|]. by apply Hlis.
  - intros s Hs. rewrite Htr.
    destruct (Hnew s Hs) as [Hold | [ready Hin]].
    + destruct (Hlis s Hold) as [ready Hin]. exists ready.
      apply elem_of_app. by left.
    + exists ready. apply elem_of_app. by right.
Qed.

Lemma quiet_handshake w w' : quiet_step w w' → handshake_step w w'.
Proof.
  intros (added & Htr & Hall & Hsame). exists added. split; [done|].
  split; [by left|]. intros s Hs. left. by rewrite <- Hsame.
Qed.

Lemma quiet_refl w : quiet_step w w.
Proof. exists []. rewrite app_nil_r. split; [done|]. split; [constructor|done]. Qed.

Lemma quiet_trans w1 w2 w3 : quiet_step w1 w2 → quiet_step w2 w3 → quiet_step w1 w3.
Proof.
  intros (a1 & Htr1 & Hall1 & Hs1) (a2 & Htr2 & Hall2 & Hs2).
  exists (a1 ++ a2). rewrite Htr2, Htr1, app_assoc. split; [done|]. split.
  - apply Forall_app. by split.
  - intros s. by rewrite Hs2.
Qed.

Lemma quiet_ws_close w ws k : quiet_step w (ws_close w ws k).
Proof.
  exists [EvClose ws k k]. split; [apply trace_ws_close|].
  split; [by repeat constructor|]. intros s. apply listening_ws_close.
Qed.

Lemma quiet_expire_previous w clientID : quiet_step w (expire_previous w clientID).
Proof.
  destruct (expire_previous_trace w clientID) as [(p & _ & _ & ->) | [_ ->]];
    [apply quiet_ws_close | apply quiet_refl].
Qed.

Lemma define_client_id_listening w ws clientID w' :
  define_client_id w ws clientID = Some w' →
  ∀ s, listening (sock w' s) = listening (sock w s).
Proof.
  unfold define_client_id.
  destruct (client_id_tag (sock w ws)) as [old|].
  - destruct (String.eqb old clientID); [|done]. by intros [= <-].
  - intros [= <-] s. rewrite sock_set_sock.
    by destruct (decide (ws = s)) as [<-|].
Qed.

Lemma handshake_handleConnection cfg w ws request now :
  handshake_step w (handleConnection cfg w ws request now).1.
Proof.
  unfold handleConnection.
  destruct (includes _ _); [apply quiet_handshake, quiet_ws_close|].
  destruct (header_client_id request) as [clientID|];
    [|apply quiet_handshake, quiet_ws_close].
  destruct (negb (nonempty clientID)); [apply quiet_handshake, quiet_ws_close|].
  destruct (nonempty (password cfg) && _); [apply quiet_handshake, quiet_ws_close|].
  destruct (quiet_expire_previous w clientID) as (expired & Hexp & Hall & Hlis).
  destruct (define_client_id _ ws clientID) as [w2|] eqn:Hdef;
    [|apply quiet_handshake; by exists expired].
  destruct (define_client_id_spec _ _ _ _ Hdef) as (_ & Htr & _ & _).
  pose proof (define_client_id_listening _ _ _ _ Hdef) as Hlis2.
  exists (expired ++ [EvSend ws (HELLO now)]).
  cbn [fst]. split; [|split].
  - change (trace w2 ++ [EvSend ws (HELLO now)]
            = trace w ++ expired ++ [EvSend ws (HELLO now)]).
    by rewrite Htr, Hexp, app_assoc.
  - left. apply Forall_app. split; [done|]. by repeat constructor.
  - intros s. unfold listen. rewrite sock_set_sock.
    destruct (decide (ws = s)) as [<-|Hne].
    + intros _. right. exists now. apply elem_of_app. right. apply list_elem_of_here.
    + intros Hs. left. rewrite <- Hlis, <- Hlis2. exact Hs.
Qed.

Lemma handshake_handleWSMessage E cfg w ws msg now random :
  listening (sock w ws) = true →
  handshake_step w (handleWSMessage E cfg w ws msg now random).1.
Proof.
  intros Hl. unfold handleWSMessage.
  destruct (negb (truthy (parse E msg))); [apply quiet_handshake, quiet_ws_close|].
  destruct (strict_eq _ (JNum 10)).
  - destruct (clients_has w (getID w ws)); [apply quiet_handshake, quiet_ws_close|].
    destruct (getID w ws) as [clientID|]; [|apply quiet_handshake, quiet_refl].
    eexists [_]. cbn [fst]. split; [reflexivity|]. split.
    + right. by eexists _, _, _.
    + intros s Hs. by left.
  - destruct (clients_get w (getID w ws)) as [client|];
      [|apply quiet_handshake, quiet_ws_close].
    destruct (dispatch_calls w client (parse E msg)) as (added & Htr & _ & Hall).
    destruct (dispatch_keeps w client (parse E msg)) as [_ Hso].
    apply quiet_handshake. exists added. split; [done|]. split.
    + eapply Forall_impl; [exact Hall|].
      by intros e (a & d & g & [-> | ->] & _).
    + intros s. unfold sock. by rewrite Hso.
Qed.

Lemma quiet_on_close E w clientID : quiet_step w (on_close E w clientID).
Proof.
  assert (∃ added, trace (on_close E w clientID) = trace w ++ added
                   ∧ Forall not_ready added) as (added & Htr & Hall).
  { unfold on_close. simpl. destruct (clients w !! clientID) as [c|].
    - rewrite trace_forEach_kill. eexists. split; [done|].
      apply Forall_fmap, Forall_true. done.
    - exists []. rewrite app_nil_r. split; [done|constructor]. }
  exists added. split; [done|]. split; [done|].
  intros s. unfold sock. by rewrite sockets_on_close.
Qed.

Lemma quiet_foldl_close_if_open l w : quiet_step w (foldl close_if_open w l).
Proof.
  revert w. induction l as [|a l IH]; intros w; simpl; [apply quiet_refl|].
  eapply quiet_trans; [|apply IH].
  unfold close_if_open. case_bool_decide; [apply quiet_refl | apply quiet_ws_close].
Qed.

Lemma quiet_close w : quiet_step w (close w).
Proof.
  destruct (quiet_foldl_close_if_open (server_clients w) w) as (added & Htr & Hall & Hs).
  exists (added ++ [EvServerClose]). unfold close. simpl.
  rewrite Htr, app_assoc. split; [done|]. split.
  - apply Forall_app. split; [done|]. by repeat constructor.
  - exact Hs.
Qed.

Lemma handshake_step_step E cfg w i : handshake_step w (step E cfg w i).
Proof.
  destruct i as [ws request now|ws msg now random|ws| |clientID guild a]; simpl.
  - destruct (sockets w !! ws) eqn:Hfresh; [apply quiet_handshake, quiet_refl|].
    destruct (handshake_handleConnection cfg (accepted_by_transport w ws) ws request now)
      as (added & Htr & Hq & Hnew).
    assert (∀ s, sock (accepted_by_transport w ws) s = sock w s) as Hsock.
    { intros s. unfold sock. simpl. rewrite lookup_insert.
      destruct (decide (ws = s)) as [<-|]; [|done]. by rewrite Hfresh. }
    exists added. split; [done|]. split.
    + destruct Hq as [Hall | (s & c & x & -> & Hl)]; [by left|].
      right. exists s, c, x. split; [done|]. by rewrite <- Hsock.
    + intros s Hs. destruct (Hnew s Hs) as [Hold | Hin]; [|by right].
      left. by rewrite <- Hsock.
  - destruct (listening (sock w ws)) eqn:Hl; simpl; [|apply quiet_handshake, quiet_refl].
    case_bool_decide; [|apply quiet_handshake, quiet_refl].
    by apply handshake_handleWSMessage.
  - case_bool_decide; [|apply quiet_handshake, quiet_refl].
    apply quiet_handshake.
    assert (quiet_step w (closed_by_transport w ws)) as Hq.
    { exists []. simpl. rewrite app_nil_r. split; [done|]. split; [constructor|].
      intros s. unfold sock. simpl. rewrite lookup_insert.
      by destruct (decide (ws = s)) as [<-|]. }
    destruct (listening (sock w ws)); [|done].
    destruct (client_id_tag (sock w ws)); [|done].
    eapply quiet_trans; [exact Hq | apply quiet_on_close].
  - apply quiet_handshake, quiet_close.
  - apply quiet_handshake. exists []. simpl. rewrite app_nil_r.
    split; [done|]. split; [constructor|done].
Qed.

Lemma reachable_handshake E cfg w : reachable E cfg w → handshake_inv w.
Proof.
  intros [inputs <-]. unfold run.
  induction inputs as [|i inputs IH] using rev_ind.
  - split.
    + intros pre ws c a post Heq. by destruct pre.
    + intros s Hs. done.
  - rewrite foldl_app. simpl.
    eapply handshake_step_inv; [exact IH | apply handshake_step_step].
Qed.

(** X13.  The handshake order: in every trace the server can produce, a
    READY sent on a channel comes after a HELLO sent on that same
    channel. *)
Theorem X13_hello_before_ready E cfg w pre ws client_id access_token post :
  reachable E cfg w →
  trace w = pre ++ EvSend ws (READY client_id access_token) :: post →
  ∃ ready, EvSend ws (HELLO ready) ∈ pre.
Proof.
  intros Hreach Htr.
  destruct (reachable_handshake E cfg w Hreach) as [Hord _].
  by apply (Hord pre ws client_id access_token post).
Qed.

Lemma X13_hello_before_ready_witness :
  trace demo_two_sessions
  = [EvSend 0 (HELLO 100); EvSend 0 (READY "client-0" "YWJj.101.00ff1a");
     EvSend 1 (HELLO 120)]
    ++ EvSend 1 (READY "client-1" "ZGVm.121.00ff1a") :: []
  ∧ ∃ ready, EvSend 1 (HELLO ready)
             ∈ [EvSend 0 (HELLO 100); EvSend 0 (READY "client-0" "YWJj.101.00ff1a");
                EvSend 1 (HELLO 120)].
Proof.
  assert (trace demo_two_sessions
          = [EvSend 0 (HELLO 100); EvSend 0 (READY "client-0" "YWJj.101.00ff1a");
             EvSend 1 (HELLO 120)]
            ++ EvSend 1 (READY "client-1" "ZGVm.121.00ff1a") :: []) as Htr
    by (vm_compute; reflexivity).
  split; [exact Htr|].
  apply (X13_hello_before_ready more_E demo_cfg demo_two_sessions _ 1
           "client-1" "ZGVm.121.00ff1a" []).
  - eexists. reflexivity.
  - exact Htr.
Defined.

(** ** Identities of channels and sessions *)

Lemma same_ids_sockets w w' : sockets w' = sockets w → same_ids w w'.
Proof. intros Heq s. unfold getID, sock. by rewrite Heq. Qed.

Lemma same_ids_kept w w' : same_ids w w' → tags_kept w w'.
Proof. intros Hsame s k. by rewrite Hsame. Qed.

Lemma same_ids_trans w1 w2 w3 : same_ids w1 w2 → same_ids w2 w3 → same_ids w1 w3.
Proof. intros H12 H23 s. by rewrite H23. Qed.

Lemma same_ids_expire_previous w clientID : same_ids w (expire_previous w clientID).
Proof.
  destruct (expire_previous_trace w clientID) as [(p & _ & _ & ->) | [_ ->]];
    [intros s; apply getID_ws_close | done].
Qed.

Lemma same_ids_handleWSMessage E cfg w ws msg now random :
  same_ids w (handleWSMessage E cfg w ws msg now random).1.
Proof.
  unfold handleWSMessage.
  destruct (negb (truthy (parse E msg))); [intros s; apply getID_ws_close|].
  destruct (strict_eq _ (JNum 10)).
  - destruct (clients_has w (getID w ws)); [intros s; apply getID_ws_close|].
    by destruct (getID w ws).
  - destruct (clients_get w (getID w ws)) as [client|];
      [|intros s; apply getID_ws_close].
    apply same_ids_sockets. apply dispatch_keeps.
Qed.

Lemma same_ids_foldl_close_if_open l w : same_ids w (foldl close_if_open w l).
Proof.
  revert w. induction l as [|a l IH]; intros w; simpl; [done|].
  eapply same_ids_trans; [|apply IH].
  unfold close_if_open. case_bool_decide; [done|]. intros s. apply getID_ws_close.
Qed.

Lemma same_ids_closed_by_transport w ws : same_ids w (closed_by_transport w ws).
Proof.
  intros s. unfold getID, sock. simpl. rewrite lookup_insert.
  by destruct (decide (ws = s)) as [<-|].
Qed.

Lemma same_ids_accepted w ws :
  sockets w !! ws = None → same_ids w (accepted_by_transport w ws).
Proof.
  intros Hfresh s. unfold getID, sock. simpl. rewrite lookup_insert.
  destruct (decide (ws = s)) as [<-|]; [|done]. by rewrite Hfresh.
Qed.

Lemma define_client_id_tags w ws clientID w' :
  define_client_id w ws clientID = Some w' →
  ∀ s k, getID w' s = Some k → getID w s = Some k ∨ (s = ws ∧ k = clientID).
Proof.
  unfold define_client_id.
  destruct (client_id_tag (sock w ws)) as [old|].
  - destruct (String.eqb old clientID); [|done]. intros [= <-] s k Hs. by left.
  - intros [= <-] s k. unfold getID. rewrite sock_set_sock.
    destruct (decide (ws = s)) as [<-|]; simpl.
    + intros [= <-]. by right.
    + intros Hs. by left.
Qed.

Lemma same_ids_listen_send w ws data : same_ids w (listen (send w ws data) ws).
Proof.
  intros s. unfold getID, listen. rewrite sock_set_sock.
  by destruct (decide (ws = s)) as [<-|].
Qed.

(** The tags after [handleConnection] are those of before, and perhaps
    the non-empty identity of the request on the new socket. *)
Lemma handleConnection_new_tag cfg w ws request now s k :
  getID (handleConnection cfg w ws request now).1 s = Some k →
  getID w s = Some k ∨ (s = ws ∧ header_client_id request = Some k ∧ k ≠ "").
Proof.
  unfold handleConnection.
  destruct (includes _ _); [cbn [fst]; rewrite getID_ws_close; by left|].
  destruct (header_client_id request) as [clientID|];
    [|cbn [fst]; rewrite getID_ws_close; by left].
  destruct (nonempty clientID) eqn:Hne; simpl;
    [|cbn [fst]; rewrite getID_ws_close; by left].
  destruct (nonempty (password cfg) && _);
    [cbn [fst]; rewrite getID_ws_close; by left|].
  pose proof (same_ids_expire_previous w clientID) as Hexp.
  destruct (define_client_id _ ws clientID) as [w2|] eqn:Hdef; cbn [fst].
  - rewrite same_ids_listen_send. intros Hs.
    apply (define_client_id_tags _ _ _ _ Hdef) in Hs as [Hold | [-> ->]].
    + left. by rewrite <- Hexp.
    + right. split; [done|]. split; [done|]. by apply nonempty_true.
  - rewrite Hexp. by left.
Qed.

Lemma step_tags_nonempty E cfg w i :
  tags_nonempty w → tags_nonempty (step E cfg w i).
Proof.
  intros Hinv. destruct i as [ws request now|ws msg now random|ws| |clientID guild a];
    simpl.
  - destruct (sockets w !! ws) eqn:Hfresh; [done|].
    intros s k Hs. apply handleConnection_new_tag in Hs as [Hold | (_ & _ & Hne)];
      [|done].
    rewrite (same_ids_accepted w ws Hfresh) in Hold. by apply (Hinv s).
  - destruct (_ && _); [|done].
    intros s k. rewrite same_ids_handleWSMessage. apply Hinv.
  - case_bool_decide; [|done].
    assert (tags_nonempty (closed_by_transport w ws)) as Hinv'.
    { intros s k. rewrite same_ids_closed_by_transport. apply Hinv. }
    destruct (listening (sock w ws)); [|done].
    destruct (client_id_tag (sock w ws)) as [tag|]; [|done].
    intros s k. rewrite (same_ids_sockets _ _ (sockets_on_close E _ _) s).
    apply Hinv'.
  - intros s k Hs. apply (Hinv s).
    rewrite <- (same_ids_foldl_close_if_open (server_clients w) w s). exact Hs.
  - done.
Qed.

Lemma reachable_tags_nonempty E cfg w : reachable E cfg w → tags_nonempty w.
Proof.
  intros [inputs <-]. unfold run.
  induction inputs as [|i inputs IH] using rev_ind.
  - intros s k Hs. done.
  - rewrite foldl_app. simpl. by apply step_tags_nonempty.
Qed.

Lemma step_tags_kept E cfg w i : tags_kept w (step E cfg w i).
Proof.
  destruct i as [ws request now|ws msg now random|ws| |clientID guild a]; simpl.
  - destruct (sockets w !! ws) eqn:Hfresh; [apply tags_kept_refl|].
    eapply tags_kept_trans; [apply same_ids_kept, same_ids_accepted, Hfresh|].
    apply handleConnection_keeps.
  - destruct (_ && _); [|apply tags_kept_refl].
    apply same_ids_kept, same_ids_handleWSMessage.
  - case_bool_decide; [|apply tags_kept_refl].
    eapply tags_kept_trans;
      [apply same_ids_kept, (same_ids_closed_by_transport w ws)|].
    destruct (listening (sock w ws)); [|apply tags_kept_refl].
    destruct (client_id_tag (sock w ws)); [|apply tags_kept_refl].
    apply tags_kept_same_sockets, sockets_on_close.
  - apply same_ids_kept. intros s. unfold close.
    apply (same_ids_foldl_close_if_open (server_clients w) w s).
  - by apply tags_kept_same_sockets.
Qed.

(** X14.  In every state the server can reach, a session is registered
    under the identity its own channel is tagged with, so no channel backs
    the sessions of two identities. *)
Theorem X14_one_identity_per_channel E cfg w k1 c1 k2 c2 :
  reachable E cfg w →
  clients w !! k1 = Some c1 →
  clients w !! k2 = Some c2 →
  socket c1 = socket c2 →
  getID w (socket c1) = Some k1 ∧ k1 = k2.
Proof.
  intros Hreach H1 H2 Hsock.
  pose proof (reachable_tagged E cfg w Hreach k1 c1 H1) as Ht1.
  pose proof (reachable_tagged E cfg w Hreach k2 c2 H2) as Ht2.
  split; [done|]. rewrite <- Hsock in Ht2. congruence.
Qed.

Lemma X14_one_identity_per_channel_witness :
  getID demo_two_sessions 0 = Some "abc"
  ∧ (socket <$> clients demo_two_sessions !! "abc") = Some 0.
Proof.
  assert (clients demo_two_sessions !! "abc" = Some demo_client) as Hreg
    by (vm_compute; reflexivity).
  destruct (X14_one_identity_per_channel more_E demo_cfg demo_two_sessions
              "abc" demo_client "abc" demo_client) as [Htag _];
    [by eexists | exact Hreg | exact Hreg | reflexivity |].
  split; [exact Htag|]. by rewrite Hreg.
Defined.

(** X15.  In every state the server can reach, no channel is tagged with
    the empty identity and no session is registered under it. *)
Theorem X15_no_empty_identity E cfg w :
  reachable E cfg w →
  (∀ s, getID w s ≠ Some "") ∧ clients w !! "" = None.
Proof.
  intros Hreach.
  pose proof (reachable_tags_nonempty E cfg w Hreach) as Htags.
  split.
  - intros s Hs. by apply (Htags s "").
  - destruct (clients w !! "") as [c|] eqn:Hc; [|done].
    exfalso. apply (Htags (socket c) ""); [|done].
    by apply (reachable_tagged E cfg w Hreach).
Qed.

Lemma X15_no_empty_identity_witness :
  clients (run demo_E demo_cfg
             [ InConnection 0 demo_anonymous_request 100;
               InMessage 0 "identify" 101 demo_random ]) !! "" = None.
Proof.
  apply (X15_no_empty_identity demo_E demo_cfg). by eexists.
Defined.

(** X16.  A channel keeps its identity for life: once a socket is tagged,
    no sequence of connections, messages, close events, shutdowns or
    subscriptions changes or removes its tag. *)
Theorem X16_identity_is_permanent E cfg w inputs s k :
  getID w s = Some k →
  getID (foldl (step E cfg) w inputs) s = Some k.
Proof.
  revert w. induction inputs as [|i inputs IH]; intros w Hs; simpl; [done|].
  apply IH. by apply step_tags_kept.
Qed.

Lemma X16_identity_is_permanent_witness :
  getID (foldl (step demo_E demo_cfg) demo_connected
           [ InMessage 0 "identify" 101 demo_random;
             InConnection 1 demo_request 200;
             InClose 0;
             InShutdown ]) 0 = Some "abc".
Proof.
  apply (X16_identity_is_permanent demo_E demo_cfg demo_connected). reflexivity.
Defined.

(** ** The shape of the secret *)

Lemma split_at_dot a r :
  count_char "." a = 0 →
  before_dot (a +:+ String "." r) = a ∧ after_dot (a +:+ String "." r) = r.
Proof.
  induction a as [|c a IH]; simpl; [done|].
  destruct (Ascii.eqb_spec c "."); [done|]. intros Hz.
  destruct (IH Hz) as [-> ->]. done.
Qed.

Lemma before_dot_none a : count_char "." a = 0 → before_dot a = a.
Proof.
  induction a as [|c a IH]; simpl; [done|].
  destruct (Ascii.eqb_spec c "."); [done|]. intros Hz. by rewrite IH.
Qed.

Lemma after_dot_none a : count_char "." a = 0 → after_dot a = "".
Proof.
  induction a as [|c a IH]; simpl; [done|].
  destruct (Ascii.eqb_spec c "."); [done|]. intros Hz. by rewrite IH.
Qed.

Lemma decimal_round_trip n :
  Z.of_int <$> NilZero.int_of_string (decimal n) = Some n.
Proof.
  unfold decimal.
  assert (∃ d, NilZero.int_of_string (NilZero.string_of_int (Z.to_int n)) = Some d
               ∧ Z.of_int d = Z.of_int (Z.to_int n)) as (d & -> & Hd).
  { destruct (Z.to_int n) as [u|u] eqn:Hn.
    - destruct u; [by eexists|..];
        (eexists; split; [apply NilZero.isi; discriminate | done]).
    - destruct u; [by eexists|..];
        (eexists; split; [apply NilZero.isi; discriminate | done]). }
  simpl. by rewrite Hd, DecimalZ.of_to.
Qed.

(** X17.  The secret can be taken apart at its two dots: the text before
    the first is the base64 of the identity, the text between them is the
    timestamp, which reads back as the number it was minted with, and the
    text after the second is the hex of the random bytes, with no further
    dot. *)
Theorem X17_secret_segments clientID now random :
  before_dot (mint_secret clientID now random) = base64 clientID
  ∧ before_dot (after_dot (mint_secret clientID now random)) = decimal now
  ∧ after_dot (after_dot (mint_secret clientID now random)) = hex random
  ∧ after_dot (hex random) = ""
  ∧ Z.of_int <$> NilZero.int_of_string (decimal now) = Some now.
Proof.
  unfold mint_secret.
  destruct (split_at_dot (base64 clientID) (decimal now +:+ "." +:+ hex random)
              (base64_no_dot clientID)) as [Hb Ha].
  destruct (split_at_dot (decimal now) (hex random) (decimal_no_dot now)) as [Hb2 Ha2].
  change ("." +:+ decimal now +:+ "." +:+ hex random)
    with (String "." (decimal now +:+ "." +:+ hex random)).
  rewrite Hb, Ha.
  change ("." +:+ hex random) with (String "." (hex random)).
  rewrite Hb2, Ha2.
  repeat split_and; try done.
  - apply after_dot_none, hex_no_dot.
  - apply decimal_round_trip.
Qed.

(** ** Shutdown, twice *)

Lemma close_if_open_not_open w a s :
  readyState (sock w s) ≠ OPEN ∨ s = a →
  readyState (sock (close_if_open w a) s) ≠ OPEN.
Proof.
  intros Hs. unfold close_if_open. case_bool_decide as Hstate.
  - destruct Hs as [Hs | ->]; done.
  - unfold ws_close.
    destruct (decide (a = s)) as [->|Hne].
    + destruct (readyState (sock w s)) eqn:Hr; simpl;
        rewrite ?sock_set_sock, ?decide_True by done; simpl; done.
    + destruct Hs as [Hs | ->]; [|done].
      destruct (readyState (sock w a)) eqn:Hr; simpl;
        rewrite ?sock_set_sock, ?decide_False by done; done.
Qed.

Lemma foldl_close_if_open_not_open l w s :
  readyState (sock w s) ≠ OPEN ∨ s ∈ l →
  readyState (sock (foldl close_if_open w l) s) ≠ OPEN.
Proof.
  revert w. induction l as [|a l IH]; intros w Hs; simpl.
  - destruct Hs as [Hs | Hs]; [done | by apply not_elem_of_nil in Hs].
  - apply IH. destruct Hs as [Hs | Hs].
    + left. apply close_if_open_not_open. by left.
    + apply elem_of_cons in Hs as [-> | Hs]; [|by right].
      left. apply close_if_open_not_open. by right.
Qed.

Lemma foldl_close_if_open_idle l w :
  (∀ s, s ∈ l → readyState (sock w s) ≠ OPEN) →
  foldl close_if_open w l = w.
Proof.
  induction l as [|a l IH]; intros Hall; simpl; [done|].
  assert (close_if_open w a = w) as ->.
  { unfold close_if_open. rewrite bool_decide_eq_true_2; [done|].
    apply Hall, list_elem_of_here. }
  apply IH. intros s Hs. by apply Hall, list_elem_of_further.
Qed.

Lemma server_clients_foldl_close_if_open l w :
  server_clients (foldl close_if_open w l) = server_clients w.
Proof.
  revert w. induction l as [|a l IH]; intros w; simpl; [done|].
  rewrite IH. unfold close_if_open. case_bool_decide; [done|].
  unfold ws_close. by destruct (readyState (sock w a)).
Qed.

(** X18.  [close()] can be called again: the sockets it closed are no
    longer OPEN, so the second call closes no channel, and all it adds is
    the second close of the acceptor; the registry stays empty. *)
Theorem X18_shutdown_twice w :
  trace (close (close w)) = trace (close w) ++ [EvServerClose]
  ∧ clients (close (close w)) = ∅.
Proof.
  split; [|done].
  assert (∀ s, s ∈ server_clients (close w) → readyState (sock (close w) s) ≠ OPEN)
    as Hidle.
  { intros s Hs.
    assert (server_clients (close w) = server_clients w) as Hsc
      by apply server_clients_foldl_close_if_open.
    rewrite Hsc in Hs.
    change (readyState (sock (foldl close_if_open w (server_clients w)) s) ≠ OPEN).
    apply foldl_close_if_open_not_open. by right. }
  remember (close w) as w1 eqn:Hw1. clear Hw1.
  unfold close. simpl. by rewrite foldl_close_if_open_idle.
Qed.

(** ** The source address *)

Lemma handleConnection_not_blocked cfg w ws request now :
  includes (blockedIP cfg) (source_address request) = false →
  ∃ added,
    trace (handleConnection cfg w ws request now).1 = trace w ++ added
    ∧ added ≠ [EvClose ws NOT_ALLOWED NOT_ALLOWED].
Proof.
  intros Hinc. unfold handleConnection. rewrite Hinc.
  assert (∀ k, k ≠ NOT_ALLOWED →
            ∃ added, trace (ws_close w ws k) = trace w ++ added
                     ∧ added ≠ [EvClose ws NOT_ALLOWED NOT_ALLOWED]) as Hother.
  { intros k Hk. exists [EvClose ws k k]. rewrite trace_ws_close.
    split; [done|]. congruence. }
  destruct (header_client_id request) as [clientID|]; [|by apply Hother].
  destruct (negb (nonempty clientID)); [by apply Hother|].
  destruct (nonempty (password cfg) && _); [by apply Hother|].
  assert (∃ expired, trace (expire_previous w clientID) = trace w ++ expired
                     ∧ expired ≠ [EvClose ws NOT_ALLOWED NOT_ALLOWED]
                     ∧ expired ++ [EvSend ws (HELLO now)]
                       ≠ [EvClose ws NOT_ALLOWED NOT_ALLOWED])
    as (expired & Hexp & Hne & Hsnoc).
  { destruct (expire_previous_trace w clientID) as [(p & _ & _ & ->) | [_ ->]].
    - exists [EvClose (socket p) SESSION_EXPIRED SESSION_EXPIRED].
      rewrite trace_ws_close. split; [done|]. split; [intros [=] | simpl; intros [=]].
    - exists []. rewrite app_nil_r. split; [done|]. split; [done|].
      simpl. intros [=]. }
  destruct (define_client_id _ ws clientID) as [w2|] eqn:Hdef; cbn [fst].
  - destruct (define_client_id_spec _ _ _ _ Hdef) as (_ & Htr & _ & _).
    exists (expired ++ [EvSend ws (HELLO now)]).
    change (trace (listen (send w2 ws (HELLO now)) ws))
      with (trace w2 ++ [EvSend ws (HELLO now)]).
    by rewrite Htr, Hexp, app_assoc.
  - by exists expired.
Qed.

(** X19.  The block list is checked against the [x-forwarded-for] header
    whenever that header is present and not empty: the connection is
    closed with NOT_ALLOWED exactly when the header's value is on the
    list, whatever the peer's own address. *)
Theorem X19_forwarded_address_decides cfg w ws request now h :
  x_forwarded_for request = Some h →
  h ≠ "" →
  rejected_with w ws NOT_ALLOWED (handleConnection cfg w ws request now)
  ↔ h ∈ blockedIP cfg.
Proof.
  intros Hh Hne.
  assert (includes (blockedIP cfg) (source_address request)
          = bool_decide (h ∈ blockedIP cfg)) as Hinc.
  { unfold source_address, or_else. rewrite Hh.
    by rewrite (proj2 (nonempty_true h) Hne). }
  split.
  - intros (_ & Htr & _).
    destruct (decide (h ∈ blockedIP cfg)) as [Hin|Hnin]; [done|].
    rewrite bool_decide_eq_false_2 in Hinc by done.
    destruct (handleConnection_not_blocked cfg w ws request now Hinc)
      as (added & Htr' & Hadded).
    rewrite Htr' in Htr. by apply app_inv_head in Htr.
  - intros Hin. rewrite bool_decide_eq_true_2 in Hinc by done.
    unfold handleConnection. rewrite Hinc. apply ws_close_rejected.
Qed.

Lemma X19_forwarded_address_decides_witness :
  ¬ rejected_with initial 0 NOT_ALLOWED
      (handleConnection demo_locked_cfg initial 0 demo_forwarded_request 100)
  ∧ rejected_with initial 0 NOT_ALLOWED
      (handleConnection demo_locked_cfg initial 0 demo_blocked_request 100).
Proof.
  split.
  - intros Hrej.
    apply (X19_forwarded_address_decides demo_locked_cfg initial 0
             demo_forwarded_request 100 "10.0.0.1") in Hrej;
      [|reflexivity|discriminate].
    apply list_elem_of_singleton in Hrej. discriminate.
  - apply (X19_forwarded_address_decides demo_locked_cfg initial 0
             demo_blocked_request 100 "10.0.0.9");
      [reflexivity | discriminate | apply list_elem_of_here].
Defined.

(** ** Sessions are found by identity *)

(** X20.  The session is looked up by identity, not by channel: once an
    identity has a session, a message that is not an identify request is
    dispatched to that session from every channel tagged with the
    identity, also from one that never identified, with the same
    result. *)
Theorem X20_session_shared_by_identity E cfg w ws1 ws2 msg now random clientID session :
  getID w ws1 = Some clientID →
  getID w ws2 = Some clientID →
  clients w !! clientID = Some session →
  truthy (parse E msg) = true →
  get_prop (parse E msg) "op" ≠ Some (JNum 10) →
  handleWSMessage E cfg w ws1 msg now random = dispatch w session (parse E msg)
  ∧ handleWSMessage E cfg w ws2 msg now random = dispatch w session (parse E msg).
Proof.
  intros H1 H2 Hreg Ht Hop.
  rewrite !handleWSMessage_other by done.
  rewrite H1, H2. simpl. by rewrite Hreg.
Qed.

Lemma X20_session_shared_by_identity_witness :
  (socket <$> clients demo_two_channels !! "abc") = Some 1
  ∧ trace (handleWSMessage demo_E demo_cfg demo_two_channels 0 "state" 400
             demo_random).1
    = trace demo_two_channels
      ++ [EvVoiceStateUpdate 8
            (JObj [("guild_id", JStr "g2"); ("session_id", JStr "s1");
                   ("user_id", JStr "abc")])].
Proof.
  assert (clients demo_two_channels !! "abc" = Some demo_newer_client) as Hreg
    by (vm_compute; reflexivity).
  split; [by rewrite Hreg|].
  destruct (X20_session_shared_by_identity demo_E demo_cfg demo_two_channels 0 1
              "state" 400 demo_random "abc" demo_newer_client) as [-> _];
    [reflexivity | reflexivity | exact Hreg | reflexivity
    | vm_compute; discriminate |].
  reflexivity.
Defined.

(** ** Where registered secrets come from *)

Lemma handleWSMessage_registry E cfg w ws msg now random k c :
  clients (handleWSMessage E cfg w ws msg now random).1 !! k = Some c →
  clients w !! k = Some c
  ∨ (getID w ws = Some k ∧ c = fresh_client E cfg ws k now random).
Proof.
  unfold handleWSMessage.
  destruct (negb (truthy (parse E msg)));
    [cbn [fst]; rewrite clients_ws_close; by left|].
  destruct (strict_eq _ (JNum 10)).
  - destruct (clients_has w (getID w ws));
      [cbn [fst]; rewrite clients_ws_close; by left|].
    destruct (getID w ws) as [clientID|]; [|by left].
    simpl. rewrite lookup_insert. case_decide as Heq; [|by left].
    subst k. intros [= <-]. by right.
  - destruct (clients_get w (getID w ws)) as [client|];
      [|cbn [fst]; rewrite clients_ws_close; by left].
    destruct (dispatch_keeps w client (parse E msg)) as [-> _]. by left.
Qed.

Lemma step_sessions_minted E cfg w i :
  sessions_minted E cfg w → sessions_minted E cfg (step E cfg w i).
Proof.
  intros Hinv. destruct i as [ws request now|ws msg now random|ws| |clientID guild a];
    simpl.
  - destruct (sockets w !! ws); [done|].
    intros k c. destruct (handleConnection_keeps cfg (accepted_by_transport w ws)
                            ws request now) as [-> _].
    apply Hinv.
  - destruct (_ && _); [|done].
    intros k c Hk. apply handleWSMessage_registry in Hk as [Hold | [_ ->]].
    + by apply Hinv.
    + by exists now, random.
  - case_bool_decide; [|done].
    assert (sessions_minted E cfg (closed_by_transport w ws)) as Hinv' by done.
    destruct (listening (sock w ws)); [|done].
    destruct (client_id_tag (sock w ws)) as [tag|]; [|done].
    intros k c. rewrite clients_on_close, lookup_delete.
    case_decide; [done|]. apply Hinv'.
  - intros k c. unfold close. simpl. by rewrite lookup_empty.
  - intros k c. simpl. rewrite lookup_alter.
    destruct (decide (clientID = k)) as [<-|]; [|apply Hinv].
    destruct (clients w !! clientID) as [c0|] eqn:Hc0; [|done].
    intros [= <-]. simpl. by apply Hinv.
Qed.

Lemma reachable_sessions_minted E cfg w :
  reachable E cfg w → sessions_minted E cfg w.
Proof.
  intros [inputs <-]. unfold run.
  induction inputs as [|i inputs IH] using rev_ind.
  - intros k c. simpl. by rewrite lookup_empty.
  - rewrite foldl_app. simpl. by apply step_sessions_minted.
Qed.

(** X21.  In every state the server can reach, the secret of a registered
    session is one minted for the identity the session is registered
    under: its first segment is the base64 of that identity and it has
    exactly two dots, however many subscriptions were attached since. *)
Theorem X21_registered_secret E cfg w k c :
  reachable E cfg w →
  clients w !! k = Some c →
  (∃ now random, secret_key c = mint_secret k now random)
  ∧ before_dot (secret_key c) = base64 k
  ∧ count_char "." (secret_key c) = 2.
Proof.
  intros Hreach Hk.
  destruct (reachable_sessions_minted E cfg w Hreach k c Hk)
    as (now & random & Hsec & _ & _).
  split; [by exists now, random|]. rewrite Hsec. split.
  - unfold mint_secret.
    change ("." +:+ decimal now +:+ "." +:+ hex random)
      with (String "." (decimal now +:+ "." +:+ hex random)).
    apply split_at_dot, base64_no_dot.
  - apply mint_secret_two_dots.
Qed.

Lemma X21_registered_secret_witness :
  before_dot (secret_key demo_client) = base64 "abc"
  ∧ count_char "." (secret_key demo_client) = 2.
Proof.
  apply (X21_registered_secret more_E demo_cfg demo_two_sessions "abc" demo_client).
  - by eexists.
  - vm_compute. reflexivity.
Defined.
